(** * MyPads: pad model, credential check and invitation tokens

    A shallow embedding of three modules of the MyPads back end:

    - [model/pad.js]: [assignProps], [checkSet], [indexGroups], [fn.set],
      [pad.get], [pad.set] and [pad.del];
    - [auth.js]: [localFn] and [isPasswordValid];
    - the mail module: [genToken] and [isValidToken].

    JavaScript values are a small inductive type, the key/value store is a
    finite map from key strings to records, and the callback-passing code is
    written either in a state-and-error monad (pad model, where every path
    calls its callback once) or in continuation-passing style over a log of
    callback invocations (auth, where it does not). *)

From stdpp Require Import base strings gmap list pretty.
From Stdlib Require Import ZArith.

Local Open Scope Z_scope.
Local Set Warnings "-register-all".

(** ** JavaScript values *)

(** The values that reach the modelled code: request bodies and stored
    records are JSON. [VNum] carries the integer-valued numbers that
    JavaScript prints with all their digits; an absent property reads as
    [VUndefined]. *)
Inductive value : Type :=
| VUndefined
| VNull
| VBool (b : bool)
| VNum (n : Z)
| VStr (s : string)
| VArr (l : list value)
| VObj (fields : list (string * value)).

(** [if (v)], [!v], [a && b], [a || b]. *)
Definition truthy (v : value) : bool :=
  match v with
  | VUndefined | VNull => false
  | VBool b => b
  | VNum n => negb (n =? 0)
  | VStr s => negb (String.eqb s "")
  | VArr _ | VObj _ => true
  end.

Definition js_and (a b : value) : value := if truthy a then b else a.

(** lodash type tests. *)
Definition isUndefined (v : value) : bool :=
  match v with VUndefined => true | _ => false end.

Definition isString (v : value) : bool :=
  match v with VStr _ => true | _ => false end.

Definition isBoolean (v : value) : bool :=
  match v with VBool _ => true | _ => false end.

Definition isArray (v : value) : bool :=
  match v with VArr _ => true | _ => false end.

(** [v === 'literal'] *)
Definition strict_eq_str (v : value) (literal : string) : bool :=
  match v with VStr s => String.eqb s literal | _ => false end.

(** The elements of an array, for the iteration of [ld.filter]. *)
Definition elements (v : value) : list value :=
  match v with VArr l => l | _ => [] end.

(** String conversion, as performed by [prefix + v]. *)
Fixpoint ToString (v : value) : string :=
  match v with
  | VUndefined => "undefined"
  | VNull => "null"
  | VBool true => "true"
  | VBool false => "false"
  | VNum n => pretty n
  | VStr s => s
  | VArr l =>
      (fix join (l : list value) : string :=
         match l with
         | [] => ""
         | x :: r =>
             let sx := match x with
                       | VUndefined | VNull => ""
                       | _ => ToString x
                       end in
             match r with
             | [] => sx
             | _ => sx +:+ "," +:+ join r
             end
         end) l
  | VObj _ => "[object Object]"
  end.

(** SameValueZero, the comparison of [ld.includes] and [ld.pull].
    Primitives compare by value. Arrays and objects compare by reference:
    a value looked for in a collection read back from the store is never
    the same object as one of its elements. *)
Definition same_value_zero (a b : value) : bool :=
  match a, b with
  | VUndefined, VUndefined => true
  | VNull, VNull => true
  | VBool x, VBool y => Bool.eqb x y
  | VNum x, VNum y => x =? y
  | VStr x, VStr y => String.eqb x y
  | _, _ => false
  end.

(** [ld.includes(l, v)] on an array. *)
Definition includes (l : list value) (v : value) : bool :=
  existsb (fun x => same_value_zero x v) l.

(** [ld.pull(l, v)]: removes every element equal to [v]. *)
Definition pull (l : list value) (v : value) : list value :=
  List.filter (fun x => negb (same_value_zero x v)) l.

(** ** Errors *)

(** [Error] and [TypeError] are the JavaScript errors built in the source.
    [StoreNotFound] and [MissingField] are raised by modules that are not
    part of the modelled files (see below). *)
Inductive error : Type :=
| Error (msg : string)
| TypeError (msg : string)
| StoreNotFound (key : string)
| MissingField (field : string).

(** The error taxonomy of the specification, section 7. *)
Inductive error_kind : Type :=
| ValidationError
| NotFound
| ReferentialIntegrityError
| AuthenticationError
| StoreError.

Definition kind_of (e : error) : error_kind :=
  match e with
  | TypeError _ | MissingField _ => ValidationError
  | StoreNotFound _ => NotFound
  | Error msg =>
      if String.eqb msg "pad does not exist" then NotFound
      else if String.eqb msg "some users not found" then ReferentialIntegrityError
      else if String.eqb msg "password is not correct" then AuthenticationError
      else StoreError
  end.

(** Outcome of an asynchronous call: [Ok a] is [callback(null, a)],
    [Err e] is [callback(e)], [Thrown e] is an exception. *)
Inductive result (A : Type) : Type :=
| Ok (a : A)
| Err (e : error)
| Thrown (e : error).
Arguments Ok {A} a.
Arguments Err {A} e.
Arguments Thrown {A} e.

(** ** Records *)

Module Params.
(** The [params] object handed to [pad.set]. *)
Record t : Type := mk {
  _id : value;
  name : value;
  group : value;
  visibility : value;
  users : value;
  password : value;
  readonly : value
}.

(** [params[field]] *)
Definition prop (p : t) (field : string) : value :=
  if String.eqb field "_id" then _id p
  else if String.eqb field "name" then name p
  else if String.eqb field "group" then group p
  else if String.eqb field "visibility" then visibility p
  else if String.eqb field "users" then users p
  else if String.eqb field "password" then password p
  else if String.eqb field "readonly" then readonly p
  else VUndefined.
End Params.

Module Pad.
(** The pad object built by [assignProps]; [_id] is [VUndefined] until
    [pad.set] assigns it. *)
Record t : Type := mk {
  _id : value;
  name : value;
  group : value;
  users : list value;
  visibility : value;
  password : value;
  readonly : value
}.

(** [p._id = id] *)
Definition set_id (id : value) (p : t) : t :=
  mk id (name p) (group p) (users p) (visibility p) (password p) (readonly p).
End Pad.

Module Group.
(** Modelled from the spec: model/group.js is absent; the group record is
    the one of the data model, section 3. *)
Record t : Type := mk {
  _id : value;
  name : value;
  admins : list value;
  users : list value;
  pads : list value;
  visibility : value;
  password : value;
  readonly : value
}.

(** [g.pads = l] *)
Definition set_pads (l : list value) (g : t) : t :=
  mk (_id g) (name g) (admins g) (users g) l (visibility g) (password g)
     (readonly g).
End Group.

Module User.
Record hashed : Type := mkHashed { salt : string; hash : string }.

(** Modelled from the spec: model/user.js is absent; the user record is the
    one of the data model, section 3. [password] is [None] once the
    property has been omitted. *)
Record t : Type := mk {
  _id : value;
  login : string;
  password : option hashed
}.

(** [ld.omit(user, 'password')] *)
Definition omit_password (u : t) : t := mk (_id u) (login u) None.
End User.

(** What the store holds under a key. *)
Inductive record : Type :=
| RUser (u : User.t)
| RGroup (g : Group.t)
| RPad (p : Pad.t).

(** Property reads on a stored object of any kind. *)
Definition rec_id (r : record) : value :=
  match r with
  | RUser u => User._id u
  | RGroup g => Group._id g
  | RPad p => Pad._id p
  end.

Definition rec_group (r : record) : value :=
  match r with
  | RPad p => Pad.group p
  | _ => VUndefined
  end.

(** [r.pads]; [None] is [undefined]. *)
Definition rec_pads (r : record) : option (list value) :=
  match r with
  | RGroup g => Some (Group.pads g)
  | _ => None
  end.

(** [r.password] on a user object; [None] is [undefined]. *)
Definition rec_password (r : record) : option User.hashed :=
  match r with
  | RUser u => User.password u
  | _ => None
  end.

(** ** The key/value store *)

(** Modelled from the spec: storage.js is absent. Section 6 gives the
    contract of the store: [get(key) -> record | NotFound],
    [set(key, record) -> ok], [delete(key) -> ok], on string keys. The
    store itself is assumed reliable: [set] and [delete] always succeed. *)
Abbreviation db := (gmap string record).

(** Asynchronous code over the store: the store is threaded through and
    the first error ends the computation. *)
Definition M (A : Type) : Type := db -> db * result A.

#[global] Instance M_ret : MRet M := fun A a s => (s, Ok a).

#[global] Instance M_bind : MBind M := fun A B f m s =>
  match m s with
  | (s', Ok a) => f a s'
  | (s', Err e) => (s', Err e)
  | (s', Thrown e) => (s', Thrown e)
  end.

(** [return callback(e)] *)
Definition fail {A} (e : error) : M A := fun s => (s, Err e).

(** [throw e] *)
Definition throw {A} (e : error) : M A := fun s => (s, Thrown e).

(** Modelled from the spec: [storage.db.get] of storage.js; section 6,
    [get(key) -> record | NotFound]. *)
Definition db_get (key : string) : M record :=
  fun s =>
    match s !! key with
    | Some r => (s, Ok r)
    | None => (s, Err (StoreNotFound key))
    end.

(** Modelled from the spec: [storage.db.set] of storage.js; section 6,
    [set(key, record) -> ok]. *)
Definition db_set (key : string) (r : record) : M unit :=
  fun s => (<[key := r]> s, Ok tt).

(** Modelled from the spec: [storage.db.remove] of storage.js; section 6,
    [delete(key) -> ok]. *)
Definition db_remove (key : string) : M unit :=
  fun s => (delete key s, Ok tt).

(** ** Common helpers *)

Module common.

(** Modelled from the spec: model/common.js is absent. Section 4.1:
    [exists(key)] is true iff the store has a record under [key]. *)
Definition checkExistence (key : string) : M bool :=
  fun s => (s, Ok (bool_decide (is_Some (s !! key)))).

(** Modelled from the spec: section 4.1, [existsAll(keys)] is true iff
    every key of the sequence exists. *)
Definition checkMultiExist (keys : list string) : M bool :=
  fun s => (s, Ok (forallb (fun k => bool_decide (is_Some (s !! k))) keys)).

(** Modelled from the spec: section 4.1, [getOrDelete] fetches the record at
    [prefix + id], fails with NotFound if it is absent and, when [del] is
    set, deletes the key and still returns the record read. *)
Definition getDel (del : bool) (PREFIX key : string) : M record :=
  r ← db_get (PREFIX +:+ key);
  if del then db_remove (PREFIX +:+ key);; mret r else mret r.

(** Modelled from the spec: the test of [validateRequiredFields], section
    4.1. A required field is missing when absent or null, empty when it is
    the empty string. *)
Definition missing_or_empty (v : value) : bool :=
  match v with
  | VUndefined | VNull => true
  | VStr s => String.eqb s ""
  | _ => false
  end.

(** Modelled from the spec: section 4.1, [validateRequiredFields] fails with
    a ValidationError naming the first missing or empty required field;
    section 7, the error is raised synchronously. *)
Fixpoint addSetInit (params : Params.t) (strFields : list string) : M unit :=
  match strFields with
  | [] => mret tt
  | f :: rest =>
      if missing_or_empty (Params.prop params f) then throw (MissingField f)
      else addSetInit params rest
  end.

End common.

(** ** Pad model (model/pad.js) *)

Section PadModel.

(** [storage.DBPREFIX.PAD], [.USER] and [.GROUP]: constants of storage.js. *)
Variables PPREFIX UPREFIX GPREFIX : string.

(** [pad.fn.assignProps] *)
Definition assignProps (params : Params.t) : Pad.t :=
  let p := params in
  let users :=
    if strict_eq_str (Params.visibility p) "restricted"
       && isArray (Params.users p)
    then List.filter isString (elements (Params.users p))
    else [] in
  let vVal := [VStr "restricted"; VStr "private"; VStr "public"] in
  let v := Params.visibility p in
  Pad.mk VUndefined (Params.name p) (Params.group p) users
    (if isString v && includes vVal v then v else VNull)
    (if isString (Params.password p) then Params.password p else VNull)
    (if isBoolean (Params.readonly p) then Params.readonly p else VNull).

(** [pad.fn.indexGroups]. [pad] is whatever object the caller holds: the
    pad being written, or the record [pad.del] has just read. The group
    object [g] is whatever the store holds under the group key; when it has
    no [pads] array, [ld.pull] and [ld.includes] leave it alone and
    [g.pads.push] raises a TypeError. *)
Definition indexGroups (del : bool) (pad : record) : M unit :=
  let _set (g : record) : M unit :=
    db_set (GPREFIX +:+ ToString (rec_id g)) g in
  g ← db_get (GPREFIX +:+ ToString (rec_group pad));
  if del then
    match g with
    | RGroup gr =>
        _set (RGroup (Group.set_pads (pull (Group.pads gr) (rec_id pad)) gr))
    | _ => _set g
    end
  else
    match g with
    | RGroup gr =>
        if negb (includes (Group.pads gr) (rec_id pad)) then
          _set (RGroup (Group.set_pads (Group.pads gr ++ [rec_id pad]) gr))
        else mret tt
    | _ => throw (TypeError "Cannot read property 'push' of undefined")
    end.

(** [pad.fn.set] *)
Definition fn_set (p : Pad.t) : M Pad.t :=
  db_set (PPREFIX +:+ ToString (Pad._id p)) (RPad p);;
  indexGroups false (RPad p);;
  mret p.

(** [pad.fn.checkSet] *)
Definition checkSet (p : Pad.t) : M Pad.t :=
  if negb (Nat.eqb (length (Pad.users p)) 0) then
    let keys := List.map (fun v => UPREFIX +:+ ToString v) (Pad.users p) in
    res ← common.checkMultiExist keys;
    if negb res then fail (Error "some users not found")
    else fn_set p
  else fn_set p.

(** [pad.get] *)
Definition pad_get : string -> M record := common.getDel false PPREFIX.

(** [pad.set]. [cuid] is the identifier the generator [cuid()] returns on
    this call, should it be asked for one. *)
Definition pad_set (cuid : string) (params : Params.t) : M Pad.t :=
  common.addSetInit params ["name"; "group"]%string;;
  let p := assignProps params in
  if truthy (Params._id params) then
    let p := Pad.set_id (Params._id params) p in
    res ← common.checkExistence (PPREFIX +:+ ToString (Pad._id p));
    if negb res then fail (Error "pad does not exist")
    else checkSet p
  else
    let p := Pad.set_id (VStr cuid) p in
    checkSet p.

(** [pad.del]. The guard on [callback] has no counterpart: in this model
    the callback is always a function. *)
Definition pad_del (key : string) : M unit :=
  p ← common.getDel true PPREFIX key;
  indexGroups true p.

End PadModel.

(** ** Credential check (auth.js) *)

(** One invocation [callback(err, res)] of a callback; a missing argument
    is [None]. *)
Record call (A : Type) : Type := Call {
  call_err : option error;
  call_res : option A
}.
Arguments Call {A} call_err call_res.
Arguments call_err {A} c.
Arguments call_res {A} c.

(** What a piece of callback-passing code does to its caller: the
    invocations of the caller's callback, in order, and the exception, if
    any, that ended it. *)
Record run (A : Type) : Type := Run {
  calls : list (call A);
  thrown : option error
}.
Arguments Run {A} calls thrown.
Arguments calls {A} r.
Arguments thrown {A} r.

Definition skip {A} : run A := Run [] None.

(** [callback(err, res)] at the top level. *)
Definition invoke {A} (err : option error) (res : option A) : run A :=
  Run [Call err res] None.

Definition raise {A} (e : error) : run A := Run [] (Some e).

(** Statement sequencing: the second statement runs unless the first one
    threw. *)
Definition seq {A} (a b : run A) : run A :=
  match thrown a with
  | Some _ => a
  | None => Run (calls a ++ calls b) (thrown b)
  end.

(** Second argument of the callback of [localFn]: [false] or the user
    object. *)
Inductive auth_res : Type :=
| ResFalse
| ResUser (u : record).

Section Auth.

Variable UPREFIX : string.

(** [user.fn.hashPassword] is part of model/user.js, which is absent. It is
    taken as the pair [(err, res)] it hands to its callback for a given
    salt and password. *)
Variable hashPassword : string -> string -> option error * option User.hashed.

(** Modelled from the spec: model/user.js is absent. Sections 2 and 4.3:
    user records are keyed by login and [user.get] fails with NotFound when
    there is none. *)
Definition user_get (login : string) : M record :=
  db_get (UPREFIX +:+ login).

(** [auth.fn.isPasswordValid] *)
Definition isPasswordValid {A} (u : record) (password : string)
    (callback : option error -> option bool -> run A) : run A :=
  match rec_password u with
  | None => raise (TypeError "Cannot read property 'salt' of undefined")
  | Some stored =>
      let (err, res) := hashPassword (User.salt stored) password in
      seq (match err with
           | Some e => callback (Some e) None
           | None => skip
           end)
          (match res with
           | None => raise (TypeError "Cannot read property 'hash' of undefined")
           | Some r =>
               if String.eqb (User.hash r) (User.hash stored)
               then callback None (Some true)
               else callback None (Some false)
           end)
  end.

(** [auth.fn.localFn], run against the store [s]. *)
Definition localFn (s : db) (login password : string)
    (callback : option error -> option auth_res -> run auth_res)
    : run auth_res :=
  match user_get login s with
  | (_, Ok u) =>
      isPasswordValid u password (fun err isValid =>
        match err with
        | Some e => callback (Some e) None
        | None =>
            if negb (default false isValid)
            then callback (Some (Error "password is not correct")) (Some ResFalse)
            else callback None (Some (ResUser u))
        end)
  | (_, Err e) => callback (Some e) None
  | (_, Thrown e) => raise e
  end.

End Auth.

(** ** Invitation tokens (mail module) *)

Module mail.

(** [mail.tokens] and [mail.ends]: objects used as maps from token to
    payload and to expiry time (milliseconds). The maps hold the entries
    written by [genToken]; what a read finds for a name that has no entry
    is given by [inherited] below. *)
Record t : Type := mk {
  tokens : gmap string value;
  ends : gmap string Z
}.

(** [var mail = { tokens: {}, ends: {} }] *)
Definition init : t := mk ∅ ∅.

(** The token has an entry in both maps. *)
Definition known (token : string) (m : t) : Prop :=
  is_Some (tokens m !! token) /\ is_Some (ends m !! token).

Section Tokens.

(** [parseFloat(conf.get('tokenDuration'))]: configuration.js is absent.
    [None] is NaN, [Some d] a whole number of minutes. *)
Variable tokenDuration : option Z.

(** [parseFloat(conf.get('tokenDuration')) || 60] *)
Definition duration : Z :=
  match tokenDuration with
  | Some d => if d =? 0 then 60 else d
  | None => 60
  end.

(** [mail.genToken]. [now] is [Date.now()] and [cuid] the value of
    [cuid()] on this call. For this synchronous function [Ok] is the value
    returned. *)
Definition genToken (now : Z) (cuid : string) (value : value) (m : t)
    : t * result string :=
  if isUndefined value
  then (m, Thrown (TypeError "BACKEND.ERROR.TYPE.PARAMS_REQUIRED"))
  else
    let duration := duration in
    let ts := now in
    let end_ := ts + duration * 60 * 1000 in
    let token := cuid in
    (mk (<[token := value]> (tokens m)) (<[token := end_]> (ends m)), Ok token).

(** One call [genToken(payload)], made at time [at_] with [cuid()]
    returning [id]. *)
Record issue : Type := Issue {
  at_ : Z;
  id : string;
  payload : value
}.

(** The module state after a sequence of calls to [genToken]. *)
Fixpoint replay (h : list issue) (m : t) : t :=
  match h with
  | [] => m
  | i :: rest => replay rest (genToken (at_ i) (id i) (payload i) m).1
  end.

(** The tokens [genToken] returned along a sequence of calls. *)
Fixpoint returned (h : list issue) (m : t) : list string :=
  match h with
  | [] => []
  | i :: rest =>
      match genToken (at_ i) (id i) (payload i) m with
      | (m', Ok tok) => tok :: returned rest m'
      | (m', _) => returned rest m'
      end
  end.

End Tokens.

(** The property names every plain object inherits from
    [Object.prototype]. [cuid()] returns none of them, so an entry written
    by [genToken] is always an entry of the object's own. *)
Definition Object_prototype : list string :=
  ["constructor"; "toString"; "toLocaleString"; "valueOf"; "hasOwnProperty";
   "isPrototypeOf"; "propertyIsEnumerable"; "__defineGetter__";
   "__defineSetter__"; "__lookupGetter__"; "__lookupSetter__"; "__proto__"].

(** [o[name]] on a plain object [o = {}] that has no entry of its own for
    [name]: the inherited property, a function (or, for [__proto__],
    [Object.prototype] itself), or [undefined]. The inherited value stands
    here as an object: it is truthy, and in a comparison with a number it
    converts to NaN. *)
Definition inherited (name : string) : value :=
  if existsb (String.eqb name) Object_prototype then VObj [] else VUndefined.

(** [mail.isValidToken]. [now] is [Date.now()]. [mail.tokens[token]] is
    the entry of [token] or else what the object inherits under that name;
    [Date.now() < mail.ends[token]] is a comparison with the stored expiry,
    or else with [undefined] or an inherited function or object, that is
    with NaN: false. *)
Definition isValidToken (now : Z) (token : string) (m : t) : value :=
  js_and (match tokens m !! token with
          | Some v => v
          | None => inherited token
          end)
         (VBool (match ends m !! token with
                 | Some e => bool_decide (now < e)
                 | None => false
                 end)).

End mail.

(** ** A stored pad as a request body *)

(** The pad object handed back to [pad.set] as its [params] argument, the
    way a client sends back what it has read: the same properties, [users]
    being the array. *)
Definition params_of_pad (p : Pad.t) : Params.t :=
  Params.mk (Pad._id p) (Pad.name p) (Pad.group p) (Pad.visibility p)
    (VArr (Pad.users p)) (Pad.password p) (Pad.readonly p).

(** The [_id] the pad gets in [pad.set]: the one of [params] when it is
    truthy, the fresh [cuid()] otherwise. *)
Definition pad_set_id (cuid : string) (params : Params.t) : value :=
  if truthy (Params._id params) then Params._id params else VStr cuid.

(** ** Preconditions used in the statements *)

(** The required fields [name] and [group] pass [addSetInit]. *)
Definition required_fields_ok (params : Params.t) : Prop :=
  common.missing_or_empty (Params.name params) = false
  /\ common.missing_or_empty (Params.group params) = false.

(** Every login listed in [p.users] has a record in the store. *)
Definition users_exist (UPREFIX : string) (p : Pad.t) (s : db) : Prop :=
  forall v, In v (Pad.users p) -> is_Some (s !! (UPREFIX +:+ ToString v)).

(** The group [gid] exists: the store holds, under its key, a group record
    carrying that id. *)
Definition group_stored (GPREFIX : string) (gid : value) (g : Group.t)
    (s : db) : Prop :=
  s !! (GPREFIX +:+ ToString gid) = Some (RGroup g) /\ Group._id g = gid.

(** ** Sample data *)

Module sample.

(** The key prefixes of storage.js in the MyPads sources. *)
Definition PPREFIX : string := "mypads:pad:".
Definition UPREFIX : string := "mypads:user:".
Definition GPREFIX : string := "mypads:group:".

Definition alice : User.t :=
  User.mk (VStr "u1") "alice" (Some (User.mkHashed "na" "na:secret")).

Definition g1 : Group.t :=
  Group.mk (VStr "g1") (VStr "Team") [VStr "alice"] [] [] (VStr "public")
    VNull VNull.

(** Group [g1] with no pad, and user [alice]. *)
Definition store : db :=
  <[GPREFIX +:+ "g1" := RGroup g1]>
    (<[UPREFIX +:+ "alice" := RUser alice]> ∅).

(** [{ name: 'Doc', group: 'g1', visibility: 'public' }] *)
Definition doc : Params.t :=
  Params.mk VUndefined (VStr "Doc") (VStr "g1") (VStr "public") VUndefined
    VUndefined VUndefined.

(** [{ name: 'Doc', group: 'g9', visibility: 'public' }], for a group that
    does not exist. *)
Definition doc_g9 : Params.t :=
  Params.mk VUndefined (VStr "Doc") (VStr "g9") (VStr "public") VUndefined
    VUndefined VUndefined.

(** [{ name: 'Doc2', group: 'g1', visibility: 'restricted',
       users: ['nouser'] }] *)
Definition doc2 : Params.t :=
  Params.mk VUndefined (VStr "Doc2") (VStr "g1") (VStr "restricted")
    (VArr [VStr "nouser"]) VUndefined VUndefined.

(** [{ _id: 'p1', name: 'Doc', group: 'g1', readonly: true }] *)
Definition doc_p1 : Params.t :=
  Params.mk (VStr "p1") (VStr "Doc") (VStr "g1") VUndefined VUndefined
    VUndefined (VBool true).

(** The pad [p1] of group [g1] and the store holding both. *)
Definition p1 : Pad.t :=
  Pad.mk (VStr "p1") (VStr "Doc") (VStr "g1") [] (VStr "public") VNull VNull.

Definition g1_p1 : Group.t := Group.set_pads [VStr "p1"] g1.

Definition store_p1 : db :=
  <[PPREFIX +:+ "p1" := RPad p1]>
    (<[GPREFIX +:+ "g1" := RGroup g1_p1]> store).

(** A stand-in for [user.fn.hashPassword] that never fails. *)
Definition hashPassword (salt password : string)
    : option error * option User.hashed :=
  (None, Some (User.mkHashed salt (salt +:+ ":" +:+ password))).

(** A [hashPassword] that reports an error and no result. *)
Definition hashPassword_failing (salt password : string)
    : option error * option User.hashed :=
  (Some (Error "hash failed"), None).

(** A [hashPassword] that reports an error together with a result. *)
Definition hashPassword_failing_with_result (salt password : string)
    : option error * option User.hashed :=
  (Some (Error "hash failed"), Some (User.mkHashed salt "")).

(** [genToken({ x: 1 })] at time 0 with [cuid()] returning ["tok"]. *)
Definition issues : list mail.issue :=
  [mail.Issue 0 "tok" (VObj [("x", VNum 1)])].

End sample.

Module sample2.

(** A second group, [g2], next to [g1] which lists the pad [p1]. *)
Definition g2 : Group.t :=
  Group.mk (VStr "g2") (VStr "Other") [VStr "alice"] [] [] (VStr "private")
    VNull VNull.

Definition store_two_groups : db :=
  <[sample.GPREFIX +:+ "g2" := RGroup g2]> sample.store_p1.

(** [{ _id: 'p1', name: 'Doc', group: 'g2' }]: the pad [p1] moved to
    [g2]. *)
Definition move_p1 : Params.t :=
  Params.mk (VStr "p1") (VStr "Doc") (VStr "g2") VUndefined VUndefined
    VUndefined VUndefined.

(** The pad [p1] stored while its group [g9] has no record. *)
Definition orphan : Pad.t :=
  Pad.mk (VStr "p1") (VStr "Doc") (VStr "g9") [] VNull VNull VNull.

Definition store_orphan : db :=
  <[sample.PPREFIX +:+ "p1" := RPad orphan]> sample.store.

(** [alice] as the login route sends it, without the password entry. *)
Definition store_redacted : db :=
  <[sample.UPREFIX +:+ "alice" := RUser (User.omit_password sample.alice)]>
    sample.store.

End sample2.

(** * Properties *)

(** ** JavaScript helpers *)

Lemma same_value_zero_eq (a b : value) :
  same_value_zero a b = true -> a = b.
Proof.
  destruct a, b; simpl; try discriminate; try reflexivity.
  - intros H. apply Bool.eqb_prop in H. congruence.
  - intros H. apply Z.eqb_eq in H. congruence.
  - intros H. apply String.eqb_eq in H. congruence.
Qed.

Lemma same_value_zero_str (i : string) (x : value) :
  same_value_zero x (VStr i) = true <-> x = VStr i.
Proof.
  split.
  - apply same_value_zero_eq.
  - intros ->. simpl. apply String.eqb_refl.
Qed.

Lemma includes_In (l : list value) (v : value) :
  includes l v = true -> In v l.
Proof.
  unfold includes. rewrite existsb_exists.
  intros (x & Hx & Heq). apply same_value_zero_eq in Heq. congruence.
Qed.

Lemma pull_str_not_In (l : list value) (i : string) :
  ~ In (VStr i) (pull l (VStr i)).
Proof.
  unfold pull. rewrite filter_In. intros [_ H].
  rewrite (proj2 (same_value_zero_str i (VStr i)) eq_refl) in H.
  discriminate.
Qed.

Lemma pull_keeps_others (l : list value) (v x : value) :
  In x l -> x <> v -> In x (pull l v).
Proof.
  intros Hin Hne. unfold pull. rewrite filter_In. split; [assumption|].
  destruct (same_value_zero x v) eqn:E; [|reflexivity].
  apply same_value_zero_eq in E. contradiction.
Qed.

(** ** [assignProps] *)

Lemma assignProps_users_restricted (params : Params.t) (l : list value) :
  Params.visibility params = VStr "restricted" ->
  Params.users params = VArr l ->
  Pad.users (assignProps params) = List.filter isString l.
Proof.
  intros Hv Hu. unfold assignProps. cbn [Pad.users]. rewrite Hv, Hu.
  reflexivity.
Qed.

Lemma assignProps_users_otherwise (params : Params.t) :
  Params.visibility params <> VStr "restricted" ->
  Pad.users (assignProps params) = [].
Proof.
  intros Hv. unfold assignProps. cbn [Pad.users].
  destruct (Params.visibility params) as [| | | |v| |]; try reflexivity.
  cbn [strict_eq_str].
  destruct (String.eqb_spec v "restricted") as [->|]; [|reflexivity].
  contradiction.
Qed.

(** C4. With [visibility === 'restricted'] and an array of users,
    [assignProps] keeps exactly the string entries of that array, in
    order; with any other visibility the users list is empty. *)
Theorem assignProps_users (params : Params.t) :
  (forall l : list value,
      Params.visibility params = VStr "restricted" ->
      Params.users params = VArr l ->
      Pad.users (assignProps params) = List.filter isString l)
  /\ (Params.visibility params <> VStr "restricted" ->
      Pad.users (assignProps params) = []).
Proof.
  split.
  - intros l. apply assignProps_users_restricted.
  - apply assignProps_users_otherwise.
Qed.

(** C5. [assignProps] keeps [visibility] when it is one of the strings
    restricted, private, public and stores null otherwise; keeps
    [password] when it is a string and stores null otherwise; keeps
    [readonly] when it is a boolean and stores null otherwise. *)
Theorem assignProps_normalizes (params : Params.t) :
  let u := assignProps params in
  Pad.visibility u =
    match Params.visibility params with
    | VStr s =>
        if decide (s = "restricted" \/ s = "private" \/ s = "public")
        then VStr s else VNull
    | _ => VNull
    end
  /\ Pad.password u =
    match Params.password params with
    | VStr s => VStr s
    | _ => VNull
    end
  /\ Pad.readonly u =
    match Params.readonly params with
    | VBool b => VBool b
    | _ => VNull
    end.
Proof.
  unfold assignProps. cbn [Pad.visibility Pad.password Pad.readonly].
  repeat split.
  - destruct (Params.visibility params) as [| | | |s| |]; try reflexivity.
    cbn [isString includes existsb same_value_zero andb].
    rewrite !orb_false_r.
    destruct (decide (s = "restricted" \/ s = "private" \/ s = "public"))
      as [Hd|Hd].
    + destruct Hd as [-> | [-> | ->]]; reflexivity.
    + destruct (String.eqb_spec "restricted" s) as [<-|H1];
        [exfalso; apply Hd; by left|].
      destruct (String.eqb_spec "private" s) as [<-|H2];
        [exfalso; apply Hd; by right; left|].
      destruct (String.eqb_spec "public" s) as [<-|H3];
        [exfalso; apply Hd; by right; right|].
      reflexivity.
  - destruct (Params.password params); reflexivity.
  - destruct (Params.readonly params); reflexivity.
Qed.

(** ** Pad model *)

Ltac run_M :=
  unfold mbind, M_bind, mret, M_ret, fail, throw, db_get, db_set, db_remove,
    common.checkExistence, common.checkMultiExist; cbn beta iota.

Lemma addSetInit_ok (params : Params.t) (s : db) :
  required_fields_ok params ->
  common.addSetInit params ["name"; "group"]%string s = (s, Ok tt).
Proof.
  intros [Hn Hg]. cbn. rewrite Hn, Hg. reflexivity.
Qed.

Section PadProperties.

Variables PPREFIX UPREFIX GPREFIX : string.

(** Pad keys and group keys never collide. *)
Hypothesis prefix_disjoint :
  forall a b : string, PPREFIX +:+ a <> GPREFIX +:+ b.

Lemma checkSet_users_exist (p : Pad.t) (s : db) :
  users_exist UPREFIX p s ->
  checkSet PPREFIX UPREFIX GPREFIX p s = fn_set PPREFIX GPREFIX p s.
Proof.
  intros Hu. unfold checkSet.
  destruct (negb (length (Pad.users p) =? 0)%nat); [|reflexivity].
  run_M.
  assert (forallb (fun k => bool_decide (is_Some (s !! k)))
            (List.map (fun v => UPREFIX +:+ ToString v) (Pad.users p)) = true)
    as ->; [|reflexivity].
  apply forallb_forall. intros k Hk. apply in_map_iff in Hk.
  destruct Hk as (v & <- & Hv). apply bool_decide_eq_true. by apply Hu.
Qed.

Lemma checkSet_user_missing (p : Pad.t) (s : db) (v : value) :
  In v (Pad.users p) ->
  s !! (UPREFIX +:+ ToString v) = None ->
  checkSet PPREFIX UPREFIX GPREFIX p s = (s, Err (Error "some users not found")).
Proof.
  intros Hin Hnone. unfold checkSet.
  destruct (Pad.users p) as [|x l] eqn:E; [destruct Hin|].
  cbn [length Nat.eqb negb]. run_M.
  assert (forallb (fun k => bool_decide (is_Some (s !! k)))
            (List.map (fun v => UPREFIX +:+ ToString v) (x :: l)) = false)
    as ->; [|reflexivity].
  apply not_true_is_false. intros H.
  rewrite forallb_forall in H.
  specialize (H (UPREFIX +:+ ToString v)).
  rewrite bool_decide_eq_true, Hnone in H.
  destruct H as [? H]; [|discriminate].
  apply in_map_iff. eauto.
Qed.

Lemma fn_set_group_missing (p : Pad.t) (s : db) :
  s !! (GPREFIX +:+ ToString (Pad.group p)) = None ->
  fn_set PPREFIX GPREFIX p s =
    (<[PPREFIX +:+ ToString (Pad._id p) := RPad p]> s,
     Err (StoreNotFound (GPREFIX +:+ ToString (Pad.group p)))).
Proof.
  intros Hg. unfold fn_set, indexGroups. run_M. cbn [rec_group].
  rewrite lookup_insert_ne by apply prefix_disjoint.
  rewrite Hg. reflexivity.
Qed.

Lemma fn_set_group_stored (p : Pad.t) (g : Group.t) (s : db) :
  group_stored GPREFIX (Pad.group p) g s ->
  exists s' g',
    fn_set PPREFIX GPREFIX p s = (s', Ok p)
    /\ s' !! (PPREFIX +:+ ToString (Pad._id p)) = Some (RPad p)
    /\ s' !! (GPREFIX +:+ ToString (Pad.group p)) = Some (RGroup g')
    /\ In (Pad._id p) (Group.pads g').
Proof.
  intros [Hg Hid]. unfold fn_set, indexGroups. run_M. cbn [rec_group rec_id].
  rewrite lookup_insert_ne by apply prefix_disjoint.
  rewrite Hg. cbn beta iota.
  destruct (includes (Group.pads g) (Pad._id p)) eqn:Hinc; cbn [negb].
  - exists (<[PPREFIX +:+ ToString (Pad._id p) := RPad p]> s), g.
    split; [reflexivity|]. split; [apply lookup_insert_eq|].
    split; [|by apply includes_In].
    rewrite lookup_insert_ne by apply prefix_disjoint. exact Hg.
  - cbn [Group.set_pads Group._id]. rewrite Hid.
    eexists _, _. split; [reflexivity|].
    split; [|split].
    + rewrite lookup_insert_ne by (intros H; symmetry in H; revert H;
                                   apply prefix_disjoint).
      apply lookup_insert_eq.
    + apply lookup_insert_eq.
    + cbn [Group.pads]. apply in_or_app. right. by left.
Qed.

Lemma pad_set_create (cuid : string) (params : Params.t) (s : db) :
  truthy (Params._id params) = false ->
  required_fields_ok params ->
  pad_set PPREFIX UPREFIX GPREFIX cuid params s =
    checkSet PPREFIX UPREFIX GPREFIX
      (Pad.set_id (VStr cuid) (assignProps params)) s.
Proof.
  intros Hid Hreq. unfold pad_set.
  unfold mbind at 1. unfold M_bind.
  rewrite (addSetInit_ok _ _ Hreq), Hid. reflexivity.
Qed.

Lemma pad_set_update (cuid : string) (params : Params.t) (s : db) :
  truthy (Params._id params) = true ->
  required_fields_ok params ->
  pad_set PPREFIX UPREFIX GPREFIX cuid params s =
    if bool_decide (is_Some (s !! (PPREFIX +:+ ToString (Params._id params))))
    then checkSet PPREFIX UPREFIX GPREFIX
           (Pad.set_id (Params._id params) (assignProps params)) s
    else (s, Err (Error "pad does not exist")).
Proof.
  intros Hid Hreq. unfold pad_set.
  unfold mbind at 1. unfold M_bind.
  rewrite (addSetInit_ok _ _ Hreq), Hid. run_M. cbn [Pad.set_id Pad._id].
  destruct (bool_decide _); reflexivity.
Qed.

Lemma pad_del_stored (key : string) (p : Pad.t) (g : Group.t) (s : db) :
  s !! (PPREFIX +:+ key) = Some (RPad p) ->
  group_stored GPREFIX (Pad.group p) g s ->
  pad_del PPREFIX GPREFIX key s =
    (<[GPREFIX +:+ ToString (Pad.group p) :=
         RGroup (Group.set_pads (pull (Group.pads g) (Pad._id p)) g)]>
       (delete (PPREFIX +:+ key) s),
     Ok tt).
Proof.
  intros Hp [Hg Hid]. unfold pad_del, common.getDel, indexGroups. run_M.
  rewrite Hp. cbn [rec_group rec_id].
  rewrite lookup_delete_ne by apply prefix_disjoint.
  rewrite Hg. cbn [Group.set_pads Group._id]. rewrite Hid. reflexivity.
Qed.

(** C1 (amended). A create call ([pad.set] without [_id]) that passes the
    field and users checks, for a group that has no record in the store,
    fails with the store's NotFound error for the group key; the pad record
    has been written by then and stays in the store under the new pad's
    key, and nothing else has changed. *)
Theorem create_group_missing_keeps_pad
    (cuid : string) (params : Params.t) (s : db) :
  truthy (Params._id params) = false ->
  required_fields_ok params ->
  users_exist UPREFIX (assignProps params) s ->
  s !! (GPREFIX +:+ ToString (Params.group params)) = None ->
  let p := Pad.set_id (VStr cuid) (assignProps params) in
  let e := StoreNotFound (GPREFIX +:+ ToString (Params.group params)) in
  let s' := <[PPREFIX +:+ cuid := RPad p]> s in
  pad_set PPREFIX UPREFIX GPREFIX cuid params s = (s', Err e)
  /\ kind_of e = NotFound
  /\ s' !! (PPREFIX +:+ cuid) = Some (RPad p).
Proof.
  intros Hid Hreq Hu Hg p e s'. split; [|split].
  - rewrite pad_set_create by assumption.
    rewrite checkSet_users_exist by exact Hu.
    apply fn_set_group_missing. exact Hg.
  - reflexivity.
  - apply lookup_insert_eq.
Qed.

(** C2. Index consistency. When the owning group exists, a create call that
    passes the field and users checks succeeds, and afterwards the group
    record read under the pad's group id lists the new pad id in [pads];
    deleting a stored pad (with a string id) whose group exists succeeds,
    removes the pad record, and afterwards the group record no longer
    lists the pad id in [pads]. *)
Theorem group_index_consistent :
  (forall (cuid : string) (params : Params.t) (g : Group.t) (s : db),
      truthy (Params._id params) = false ->
      required_fields_ok params ->
      users_exist UPREFIX (assignProps params) s ->
      group_stored GPREFIX (Params.group params) g s ->
      exists (s' : db) (p : Pad.t) (g' : Group.t),
        pad_set PPREFIX UPREFIX GPREFIX cuid params s = (s', Ok p)
        /\ Pad._id p = VStr cuid
        /\ Pad.group p = Params.group params
        /\ s' !! (PPREFIX +:+ cuid) = Some (RPad p)
        /\ s' !! (GPREFIX +:+ ToString (Pad.group p)) = Some (RGroup g')
        /\ In (Pad._id p) (Group.pads g'))
  /\ (forall (key i : string) (p : Pad.t) (g : Group.t) (s : db),
      s !! (PPREFIX +:+ key) = Some (RPad p) ->
      Pad._id p = VStr i ->
      group_stored GPREFIX (Pad.group p) g s ->
      exists (s' : db) (g' : Group.t),
        pad_del PPREFIX GPREFIX key s = (s', Ok tt)
        /\ s' !! (PPREFIX +:+ key) = None
        /\ s' !! (GPREFIX +:+ ToString (Pad.group p)) = Some (RGroup g')
        /\ ~ In (Pad._id p) (Group.pads g')).
Proof.
  split.
  - intros cuid params g s Hid Hreq Hu Hg.
    set (p := Pad.set_id (VStr cuid) (assignProps params)).
    destruct (fn_set_group_stored p g s Hg) as (s' & g' & Hrun & Hp & Hg' & Hin).
    exists s', p, g'. split; [|split; [|split; [|split; [|split]]]];
      try reflexivity; try assumption.
    rewrite pad_set_create by assumption.
    rewrite checkSet_users_exist by exact Hu. exact Hrun.
  - intros key i p g s Hp Hi Hg.
    eexists _, _. split; [by apply pad_del_stored|].
    split; [|split].
    + rewrite lookup_insert_ne
        by (intros H; symmetry in H; revert H; apply prefix_disjoint).
      apply lookup_delete_eq.
    + apply lookup_insert_eq.
    + cbn [Group.set_pads Group.pads]. rewrite Hi. apply pull_str_not_In.
Qed.

(** C6. A create call with [visibility] restricted whose users array lists
    a login without a user record fails with the error "some users not
    found" (ReferentialIntegrityError) and leaves the store as it was: no
    pad record is written and no group record is touched. *)
Theorem create_unknown_user_rejected
    (cuid login : string) (params : Params.t) (l : list value) (s : db) :
  truthy (Params._id params) = false ->
  required_fields_ok params ->
  Params.visibility params = VStr "restricted" ->
  Params.users params = VArr l ->
  In (VStr login) l ->
  s !! (UPREFIX +:+ login) = None ->
  pad_set PPREFIX UPREFIX GPREFIX cuid params s =
    (s, Err (Error "some users not found"))
  /\ kind_of (Error "some users not found") = ReferentialIntegrityError.
Proof.
  intros Hid Hreq Hv Hu Hin Hnone. split; [|reflexivity].
  rewrite pad_set_create by assumption.
  apply (checkSet_user_missing _ _ (VStr login)); [|exact Hnone].
  cbn [Pad.set_id Pad.users].
  rewrite (assignProps_users_restricted params l Hv Hu).
  apply filter_In. split; [exact Hin | reflexivity].
Qed.

(** C8. An update call ([pad.set] with a truthy [_id]) for which the store
    has no pad record fails with "pad does not exist" (NotFound) and leaves
    the store untouched; when the record exists, the call continues with
    [checkSet] on the pad carrying the given id, exactly as a create call
    does with its fresh id, and on success that pad, id included, is the
    record stored under the pad key. *)
Theorem update_requires_existing_pad
    (cuid : string) (params : Params.t) (s : db) :
  required_fields_ok params ->
  let p := Pad.set_id (Params._id params) (assignProps params) in
  let pk := PPREFIX +:+ ToString (Params._id params) in
  (truthy (Params._id params) = true ->
   s !! pk = None ->
   pad_set PPREFIX UPREFIX GPREFIX cuid params s =
     (s, Err (Error "pad does not exist"))
   /\ kind_of (Error "pad does not exist") = NotFound)
  /\ (truthy (Params._id params) = true ->
      is_Some (s !! pk) ->
      pad_set PPREFIX UPREFIX GPREFIX cuid params s =
        checkSet PPREFIX UPREFIX GPREFIX p s)
  /\ (truthy (Params._id params) = false ->
      pad_set PPREFIX UPREFIX GPREFIX cuid params s =
        checkSet PPREFIX UPREFIX GPREFIX
          (Pad.set_id (VStr cuid) (assignProps params)) s)
  /\ (forall g : Group.t,
      truthy (Params._id params) = true ->
      is_Some (s !! pk) ->
      users_exist UPREFIX p s ->
      group_stored GPREFIX (Pad.group p) g s ->
      exists s' : db,
        pad_set PPREFIX UPREFIX GPREFIX cuid params s = (s', Ok p)
        /\ s' !! pk = Some (RPad p)
        /\ Pad._id p = Params._id params).
Proof.
  intros Hreq p pk. split; [|split; [|split]].
  - intros Hid Hnone. split; [|reflexivity].
    rewrite pad_set_update by assumption. fold pk. rewrite Hnone.
    rewrite bool_decide_eq_false_2; [reflexivity|].
    intros [? ?]. discriminate.
  - intros Hid Hsome.
    rewrite pad_set_update by assumption. fold pk.
    rewrite bool_decide_eq_true_2 by exact Hsome. reflexivity.
  - intros Hid. by apply pad_set_create.
  - intros g Hid Hsome Hu Hg.
    destruct (fn_set_group_stored p g s Hg) as (s' & g' & Hrun & Hp & _).
    exists s'. split; [|split; [exact Hp | reflexivity]].
    rewrite pad_set_update by assumption. fold pk.
    rewrite bool_decide_eq_true_2 by exact Hsome.
    fold p. rewrite checkSet_users_exist by exact Hu. exact Hrun.
Qed.

End PadProperties.

(** ** Credential check *)

Section AuthProperties.

Variable UPREFIX : string.
Variable hashPassword : string -> string -> option error * option User.hashed.

Lemma isPasswordValid_hashed {A} (u : record) (stored r : User.hashed)
    (password : string) (callback : option error -> option bool -> run A) :
  rec_password u = Some stored ->
  hashPassword (User.salt stored) password = (None, Some r) ->
  (forall b, thrown (callback None (Some b)) = None) ->
  isPasswordValid hashPassword u password callback =
    callback None (Some (String.eqb (User.hash r) (User.hash stored))).
Proof.
  intros Hp Hh Hcb. unfold isPasswordValid. rewrite Hp, Hh.
  unfold seq. cbn [skip thrown calls app].
  destruct (String.eqb _ _); by destruct (callback None _).
Qed.

(** After a hashing error the run is never the single, clean hand-over of
    that error: either an exception follows it or a second invocation. *)
Lemma isPasswordValid_hash_error_not_clean (u : record)
    (stored : User.hashed) (password : string) (e : error)
    (res : option User.hashed) :
  rec_password u = Some stored ->
  hashPassword (User.salt stored) password = (Some e, res) ->
  isPasswordValid hashPassword u password (@invoke bool)
    <> Run [Call (Some e) None] None.
Proof.
  intros Hp Hh. unfold isPasswordValid. rewrite Hp, Hh.
  unfold seq, invoke. cbn [thrown calls app].
  destruct res as [r|]; [|discriminate].
  destruct (String.eqb _ _); discriminate.
Qed.

(** C7 (amended). [localFn] has three disjoint outcomes, each a single
    invocation of the callback. Unknown login: the store's NotFound error,
    whatever the password. Known login whose salted hash differs from the
    stored one: the error "password is not correct"
    (AuthenticationError, a kind other than NotFound) with [false]. Known
    login with the matching hash: no error and the user record exactly as
    loaded from the store, its password entry (salt and hash) included. *)
Theorem localFn_three_cases (s : db) (login password : string) :
  let key := UPREFIX +:+ login in
  let outcome := localFn UPREFIX hashPassword s login password invoke in
  (s !! key = None ->
   outcome = Run [Call (Some (StoreNotFound key)) None] None
   /\ kind_of (StoreNotFound key) = NotFound)
  /\ (forall (u : User.t) (stored r : User.hashed),
      s !! key = Some (RUser u) ->
      User.password u = Some stored ->
      hashPassword (User.salt stored) password = (None, Some r) ->
      (User.hash r <> User.hash stored ->
       outcome =
         Run [Call (Some (Error "password is not correct")) (Some ResFalse)]
             None
       /\ kind_of (Error "password is not correct") = AuthenticationError
       /\ kind_of (Error "password is not correct") <> NotFound)
      /\ (User.hash r = User.hash stored ->
          outcome = Run [Call None (Some (ResUser (RUser u)))] None
          /\ rec_password (RUser u) = Some stored)).
Proof.
  intros key outcome. split.
  - intros Hnone. split; [|reflexivity].
    unfold outcome, localFn, user_get, db_get. fold key. rewrite Hnone.
    reflexivity.
  - intros u stored r Hu Hpw Hh.
    assert (outcome =
              if String.eqb (User.hash r) (User.hash stored)
              then Run [Call None (Some (ResUser (RUser u)))] None
              else Run [Call (Some (Error "password is not correct"))
                          (Some ResFalse)] None) as Hout.
    { unfold outcome, localFn, user_get, db_get. fold key. rewrite Hu.
      rewrite (isPasswordValid_hashed (RUser u) stored r); try assumption.
      - cbn [from_option id]. by destruct (String.eqb _ _).
      - intros b. cbn [from_option id]. by destruct b. }
    split.
    + intros Hne. apply String.eqb_neq in Hne. rewrite Hne in Hout.
      split; [exact Hout|]. split; [reflexivity | discriminate].
    + intros Heq. apply String.eqb_eq in Heq. rewrite Heq in Hout.
      split; [exact Hout | exact Hpw].
Qed.

End AuthProperties.

(** ** Invitation tokens *)

Section TokenProperties.

Variable tokenDuration : option Z.

Lemma genToken_accepts (now : Z) (cuid : string) (v : value) (m : mail.t) :
  isUndefined v = false ->
  mail.genToken tokenDuration now cuid v m =
    (mail.mk (<[cuid := v]> (mail.tokens m))
       (<[cuid := now + mail.duration tokenDuration * 60 * 1000]>
          (mail.ends m)),
     Ok cuid).
Proof.
  intros Hv. unfold mail.genToken. rewrite Hv. reflexivity.
Qed.

Lemma genToken_keeps_known (now : Z) (cuid : string) (v : value)
    (m : mail.t) (t : string) :
  mail.known t m -> mail.known t (mail.genToken tokenDuration now cuid v m).1.
Proof.
  intros [Ht He]. unfold mail.known, mail.genToken.
  destruct (isUndefined v); [by split|].
  cbn [fst mail.tokens mail.ends]. split.
  - rewrite lookup_insert. case_decide; [by eexists | exact Ht].
  - rewrite lookup_insert. case_decide; [by eexists | exact He].
Qed.

Lemma replay_keeps_known (h : list mail.issue) (m : mail.t) (t : string) :
  mail.known t m -> mail.known t (mail.replay tokenDuration h m).
Proof.
  revert m. induction h as [|i h IH]; intros m Hk; [exact Hk|].
  cbn [mail.replay]. apply IH. by apply genToken_keeps_known.
Qed.

Lemma returned_known (h : list mail.issue) (m : mail.t) (t : string) :
  In t (mail.returned tokenDuration h m) ->
  mail.known t (mail.replay tokenDuration h m).
Proof.
  revert m. induction h as [|i h IH]; intros m Hin; [destruct Hin|].
  cbn [mail.returned mail.replay] in *.
  unfold mail.genToken in *.
  destruct (isUndefined (mail.payload i)); cbn [fst] in *.
  - by apply IH.
  - destruct Hin as [<-|Hin]; [|by apply IH].
    apply replay_keeps_known. split; cbn [mail.tokens mail.ends];
      rewrite lookup_insert_eq; by eexists.
Qed.

Lemma not_returned_unknown (h : list mail.issue) (m : mail.t) (t : string) :
  ~ In t (mail.returned tokenDuration h m) ->
  mail.tokens (mail.replay tokenDuration h m) !! t = mail.tokens m !! t.
Proof.
  revert m. induction h as [|i h IH]; intros m Hnin; [reflexivity|].
  cbn [mail.returned mail.replay] in *.
  unfold mail.genToken in *.
  destruct (isUndefined (mail.payload i)); cbn [fst] in *.
  - by apply IH.
  - rewrite IH by (intros H; apply Hnin; by right).
    cbn [mail.tokens]. apply lookup_insert_ne.
    intros Heq. apply Hnin. by left.
Qed.

Lemma not_returned_no_expiry (h : list mail.issue) (m : mail.t) (t : string) :
  ~ In t (mail.returned tokenDuration h m) ->
  mail.ends (mail.replay tokenDuration h m) !! t = mail.ends m !! t.
Proof.
  revert m. induction h as [|i h IH]; intros m Hnin; [reflexivity|].
  cbn [mail.returned mail.replay] in *.
  unfold mail.genToken in *.
  destruct (isUndefined (mail.payload i)); cbn [fst] in *.
  - by apply IH.
  - rewrite IH by (intros H; apply Hnin; by right).
    cbn [mail.ends]. apply lookup_insert_ne.
    intros Heq. apply Hnin. by left.
Qed.

(** C3 (amended). After any sequence of calls to [genToken]: for a string
    that no call returned, [isValidToken] returns a falsy value that is
    not always the boolean [false]: [undefined], except for the property
    names every object inherits from [Object.prototype] ('constructor',
    'toString', '__proto__', ...), for which it returns [false]; a
    returned token has a stored payload and a stored expiry time and, when
    that payload is truthy, [isValidToken] returns the boolean "now is
    strictly before the expiry", hence [true] exactly while the token has
    not expired and [false] afterwards. *)
Theorem isValidToken_after_issues (h : list mail.issue) (t : string) (now : Z) :
  let m := mail.replay tokenDuration h mail.init in
  (~ In t (mail.returned tokenDuration h mail.init) ->
   mail.isValidToken now t m
   = (if bool_decide (In t mail.Object_prototype) then VBool false
      else VUndefined)
   /\ truthy (mail.isValidToken now t m) = false)
  /\ (In t (mail.returned tokenDuration h mail.init) ->
      exists (v : value) (e : Z),
        mail.tokens m !! t = Some v
        /\ mail.ends m !! t = Some e
        /\ (truthy v = true ->
            mail.isValidToken now t m = VBool (bool_decide (now < e)))).
Proof.
  intros m. subst m. split.
  - intros Hnin.
    assert (mail.isValidToken now t (mail.replay tokenDuration h mail.init)
            = if bool_decide (In t mail.Object_prototype) then VBool false
              else VUndefined) as ->.
    { unfold mail.isValidToken.
      rewrite not_returned_unknown, not_returned_no_expiry by exact Hnin.
      cbn [mail.init mail.tokens mail.ends]. rewrite !lookup_empty.
      unfold mail.inherited.
      destruct (existsb (String.eqb t) mail.Object_prototype) eqn:E.
      - rewrite bool_decide_eq_true_2; [reflexivity|].
        apply existsb_exists in E as (x & Hx & Heq).
        apply String.eqb_eq in Heq. by subst x.
      - rewrite bool_decide_eq_false_2; [reflexivity|].
        intros Hin. apply not_true_iff_false in E. apply E.
        apply existsb_exists. exists t. split; [exact Hin|].
        apply String.eqb_refl. }
    split; [reflexivity|]. by destruct (bool_decide _).
  - intros Hin. destruct (returned_known h mail.init t Hin) as [[v Hv] [e He]].
    exists v, e. split; [exact Hv|]. split; [exact He|].
    intros Htr. unfold mail.isValidToken. rewrite Hv, He.
    unfold js_and. rewrite Htr. reflexivity.
Qed.

(** C9 (amended). [genToken] accepts every payload that is defined but
    falsy and returns a token for it, stored with the expiry "time of issue
    plus the configured duration"; [isValidToken] on that token returns the
    payload itself (null, false, 0 or the empty string: a falsy value, not
    always the boolean [false]) at any time, also before that expiry. *)
Theorem falsy_payload_token_reads_invalid
    (ts : Z) (cuid : string) (v : value) (m : mail.t) :
  isUndefined v = false ->
  truthy v = false ->
  exists m' : mail.t,
    mail.genToken tokenDuration ts cuid v m = (m', Ok cuid)
    /\ mail.ends m' !! cuid
       = Some (ts + mail.duration tokenDuration * 60 * 1000)
    /\ forall now : Z,
         mail.isValidToken now cuid m' = v
         /\ truthy (mail.isValidToken now cuid m') = false.
Proof.
  intros Hdef Hfalsy.
  eexists. split; [by apply genToken_accepts|].
  cbn [mail.ends]. split; [apply lookup_insert_eq|].
  intros now.
  assert (forall e,
            mail.isValidToken now cuid
              (mail.mk (<[cuid := v]> (mail.tokens m))
                       (<[cuid := e]> (mail.ends m))) = v) as Hres.
  { intros e. unfold mail.isValidToken. cbn [mail.tokens mail.ends].
    rewrite !lookup_insert_eq. unfold js_and.
    rewrite Hfalsy. reflexivity. }
  rewrite Hres. split; [reflexivity | exact Hfalsy].
Qed.

End TokenProperties.

(** ** The statements at sample inputs *)

Lemma sample_prefix_disjoint (a b : string) :
  sample.PPREFIX +:+ a <> sample.GPREFIX +:+ b.
Proof. unfold sample.PPREFIX, sample.GPREFIX. cbn. discriminate. Qed.

Lemma assignProps_users_witness :
  Pad.users (assignProps
               (Params.mk VUndefined (VStr "Doc") (VStr "g1")
                  (VStr "restricted")
                  (VArr [VStr "alice"; VNum 7; VNull; VStr "bob"])
                  VUndefined VUndefined))
    = [VStr "alice"; VStr "bob"]
  /\ Pad.users (assignProps
                  (Params.mk VUndefined (VStr "Doc") (VStr "g1")
                     (VStr "private") (VArr [VStr "alice"])
                     VUndefined VUndefined)) = [].
Proof.
  split.
  - apply (proj1 (assignProps_users _)
             [VStr "alice"; VNum 7; VNull; VStr "bob"]); reflexivity.
  - apply (proj2 (assignProps_users _)). discriminate.
Defined.

(** C1, as stated, fails: creating the pad [c1] for the missing group [g9]
    ends with the NotFound error, and the pad record is in the store under
    the new pad's key. *)
Lemma create_group_missing_pad_persisted :
  let out := pad_set sample.PPREFIX sample.UPREFIX sample.GPREFIX "c1"
               sample.doc_g9 sample.store in
  sample.store !! "mypads:group:g9" = None
  /\ out.2 = Err (StoreNotFound "mypads:group:g9")
  /\ out.1 !! "mypads:pad:c1" =
       Some (RPad (Pad.mk (VStr "c1") (VStr "Doc") (VStr "g9") []
                     (VStr "public") VNull VNull))
  /\ out.1 !! "mypads:pad:c1" <> None.
Proof. repeat split; vm_compute; try reflexivity; discriminate. Qed.

Lemma create_group_missing_keeps_pad_witness :
  pad_set sample.PPREFIX sample.UPREFIX sample.GPREFIX "c1" sample.doc_g9
    sample.store
  = (<[sample.PPREFIX +:+ "c1" :=
         RPad (Pad.set_id (VStr "c1") (assignProps sample.doc_g9))]>
       sample.store,
     Err (StoreNotFound (sample.GPREFIX +:+ "g9")))
  /\ kind_of (StoreNotFound (sample.GPREFIX +:+ "g9")) = NotFound
  /\ (<[sample.PPREFIX +:+ "c1" :=
          RPad (Pad.set_id (VStr "c1") (assignProps sample.doc_g9))]>
        sample.store) !! (sample.PPREFIX +:+ "c1")
     = Some (RPad (Pad.set_id (VStr "c1") (assignProps sample.doc_g9))).
Proof.
  apply (create_group_missing_keeps_pad sample.PPREFIX sample.UPREFIX
           sample.GPREFIX sample_prefix_disjoint "c1" sample.doc_g9
           sample.store).
  - reflexivity.
  - split; reflexivity.
  - intros v [].
  - reflexivity.
Defined.

Lemma group_index_consistent_witness :
  (exists (s' : db) (p : Pad.t) (g' : Group.t),
      pad_set sample.PPREFIX sample.UPREFIX sample.GPREFIX "c1" sample.doc
        sample.store = (s', Ok p)
      /\ Pad._id p = VStr "c1"
      /\ Pad.group p = VStr "g1"
      /\ s' !! (sample.PPREFIX +:+ "c1") = Some (RPad p)
      /\ s' !! (sample.GPREFIX +:+ ToString (Pad.group p)) = Some (RGroup g')
      /\ In (Pad._id p) (Group.pads g'))
  /\ (exists (s' : db) (g' : Group.t),
      pad_del sample.PPREFIX sample.GPREFIX "p1" sample.store_p1 = (s', Ok tt)
      /\ s' !! (sample.PPREFIX +:+ "p1") = None
      /\ s' !! (sample.GPREFIX +:+ ToString (Pad.group sample.p1))
         = Some (RGroup g')
      /\ ~ In (Pad._id sample.p1) (Group.pads g')).
Proof.
  split.
  - apply (proj1 (group_index_consistent sample.PPREFIX sample.UPREFIX
                    sample.GPREFIX sample_prefix_disjoint)
             "c1" sample.doc sample.g1 sample.store).
    + reflexivity.
    + split; reflexivity.
    + intros v [].
    + split; reflexivity.
  - apply (proj2 (group_index_consistent sample.PPREFIX sample.UPREFIX
                    sample.GPREFIX sample_prefix_disjoint)
             "p1" "p1" sample.p1 sample.g1_p1 sample.store_p1).
    + reflexivity.
    + reflexivity.
    + split; reflexivity.
Defined.

Lemma create_unknown_user_rejected_witness :
  pad_set sample.PPREFIX sample.UPREFIX sample.GPREFIX "c2" sample.doc2
    sample.store
  = (sample.store, Err (Error "some users not found"))
  /\ kind_of (Error "some users not found") = ReferentialIntegrityError.
Proof.
  apply (create_unknown_user_rejected sample.PPREFIX sample.UPREFIX
           sample.GPREFIX "c2" "nouser" sample.doc2 [VStr "nouser"]
           sample.store).
  - reflexivity.
  - split; reflexivity.
  - reflexivity.
  - reflexivity.
  - by left.
  - reflexivity.
Defined.

Lemma update_requires_existing_pad_witness :
  (pad_set sample.PPREFIX sample.UPREFIX sample.GPREFIX "c3" sample.doc_p1
     sample.store
   = (sample.store, Err (Error "pad does not exist"))
   /\ kind_of (Error "pad does not exist") = NotFound)
  /\ pad_set sample.PPREFIX sample.UPREFIX sample.GPREFIX "c3" sample.doc_p1
       sample.store_p1
     = checkSet sample.PPREFIX sample.UPREFIX sample.GPREFIX
         (Pad.set_id (VStr "p1") (assignProps sample.doc_p1)) sample.store_p1
  /\ pad_set sample.PPREFIX sample.UPREFIX sample.GPREFIX "c3" sample.doc
       sample.store
     = checkSet sample.PPREFIX sample.UPREFIX sample.GPREFIX
         (Pad.set_id (VStr "c3") (assignProps sample.doc)) sample.store
  /\ (exists s' : db,
      pad_set sample.PPREFIX sample.UPREFIX sample.GPREFIX "c3" sample.doc_p1
        sample.store_p1
      = (s', Ok (Pad.set_id (VStr "p1") (assignProps sample.doc_p1)))
      /\ s' !! (sample.PPREFIX +:+ "p1")
         = Some (RPad (Pad.set_id (VStr "p1") (assignProps sample.doc_p1)))
      /\ Pad._id (Pad.set_id (VStr "p1") (assignProps sample.doc_p1))
         = VStr "p1").
Proof.
  split; [|split; [|split]].
  - apply (update_requires_existing_pad sample.PPREFIX sample.UPREFIX
             sample.GPREFIX sample_prefix_disjoint "c3" sample.doc_p1
             sample.store); [split; reflexivity | reflexivity | reflexivity].
  - apply (update_requires_existing_pad sample.PPREFIX sample.UPREFIX
             sample.GPREFIX sample_prefix_disjoint "c3" sample.doc_p1
             sample.store_p1);
      [split; reflexivity | reflexivity | by eexists].
  - apply (update_requires_existing_pad sample.PPREFIX sample.UPREFIX
             sample.GPREFIX sample_prefix_disjoint "c3" sample.doc
             sample.store); [split; reflexivity | reflexivity].
  - apply (update_requires_existing_pad sample.PPREFIX sample.UPREFIX
             sample.GPREFIX sample_prefix_disjoint "c3" sample.doc_p1
             sample.store_p1) with (g := sample.g1_p1).
    + split; reflexivity.
    + reflexivity.
    + by eexists.
    + intros v [].
    + split; reflexivity.
Defined.

(** C7, as stated, fails on its last case: with the right password
    [localFn] hands over the stored user record with its password entry;
    the record stripped of the password is a different one. *)
Lemma localFn_success_keeps_password :
  localFn sample.UPREFIX sample.hashPassword sample.store "alice" "secret"
    invoke
  = Run [Call None (Some (ResUser (RUser sample.alice)))] None
  /\ rec_password (RUser sample.alice)
     = Some (User.mkHashed "na" "na:secret")
  /\ RUser sample.alice <> RUser (User.omit_password sample.alice).
Proof. repeat split; vm_compute; try reflexivity; discriminate. Qed.

Lemma localFn_three_cases_witness :
  (localFn sample.UPREFIX sample.hashPassword sample.store "bob" "secret"
     invoke
   = Run [Call (Some (StoreNotFound (sample.UPREFIX +:+ "bob"))) None] None
   /\ kind_of (StoreNotFound (sample.UPREFIX +:+ "bob")) = NotFound)
  /\ (localFn sample.UPREFIX sample.hashPassword sample.store "alice" "guess"
        invoke
      = Run [Call (Some (Error "password is not correct")) (Some ResFalse)]
            None
      /\ kind_of (Error "password is not correct") = AuthenticationError
      /\ kind_of (Error "password is not correct") <> NotFound)
  /\ (localFn sample.UPREFIX sample.hashPassword sample.store "alice" "secret"
        invoke
      = Run [Call None (Some (ResUser (RUser sample.alice)))] None
      /\ rec_password (RUser sample.alice)
         = Some (User.mkHashed "na" "na:secret")).
Proof.
  split; [|split].
  - apply (localFn_three_cases sample.UPREFIX sample.hashPassword
             sample.store "bob" "secret"). reflexivity.
  - apply (proj2 (localFn_three_cases sample.UPREFIX sample.hashPassword
                    sample.store "alice" "guess")
             sample.alice (User.mkHashed "na" "na:secret")
             (User.mkHashed "na" "na:guess"));
      [reflexivity | reflexivity | reflexivity | discriminate].
  - apply (proj2 (localFn_three_cases sample.UPREFIX sample.hashPassword
                    sample.store "alice" "secret")
             sample.alice (User.mkHashed "na" "na:secret")
             (User.mkHashed "na" "na:secret")); reflexivity.
Defined.

(** C10. When [hashPassword] reports an error, [isPasswordValid] hands it
    to the callback and then goes on to the comparison: with no hash result
    the read of [res.hash] throws after the callback has run; with a hash
    result the callback is invoked a second time. *)
Theorem isPasswordValid_hash_error_goes_on :
  isPasswordValid sample.hashPassword_failing (RUser sample.alice) "secret"
    invoke
  = Run [Call (Some (Error "hash failed")) None]
        (Some (TypeError "Cannot read property 'hash' of undefined"))
  /\ isPasswordValid sample.hashPassword_failing_with_result
       (RUser sample.alice) "secret" invoke
     = Run [Call (Some (Error "hash failed")) None; Call None (Some false)]
           None.
Proof. split; reflexivity. Qed.

(** C3, as stated, fails: for a string that was never issued
    [isValidToken] does not return [false] but [undefined], while for an
    issued token past its expiry it returns [false]; the two answers
    differ. *)
Lemma isValidToken_unknown_is_undefined :
  let m := mail.replay (Some 60) sample.issues mail.init in
  ~ In "never-issued"%string (mail.returned (Some 60) sample.issues mail.init)
  /\ mail.isValidToken 3600000 "never-issued" m = VUndefined
  /\ mail.isValidToken 3600000 "never-issued" m <> VBool false
  /\ mail.ends m !! "tok" = Some 3600000
  /\ mail.isValidToken 3600000 "tok" m = VBool false
  /\ mail.isValidToken 3600000 "tok" m
     <> mail.isValidToken 3600000 "never-issued" m.
Proof.
  cbv zeta. split; [intros [H|[]]; discriminate H|].
  repeat split; vm_compute; try reflexivity; discriminate.
Qed.

Lemma isValidToken_after_issues_witness :
  (mail.isValidToken 3599999 "never-issued"
     (mail.replay (Some 60) sample.issues mail.init) = VUndefined
   /\ truthy (mail.isValidToken 3599999 "never-issued"
                (mail.replay (Some 60) sample.issues mail.init)) = false)
  /\ (mail.isValidToken 3599999 "constructor"
        (mail.replay (Some 60) sample.issues mail.init) = VBool false
      /\ truthy (mail.isValidToken 3599999 "constructor"
                   (mail.replay (Some 60) sample.issues mail.init)) = false)
  /\ exists (v : value) (e : Z),
       mail.tokens (mail.replay (Some 60) sample.issues mail.init) !! "tok"
       = Some v
       /\ mail.ends (mail.replay (Some 60) sample.issues mail.init) !! "tok"
          = Some e
       /\ (truthy v = true ->
           mail.isValidToken 3599999 "tok"
             (mail.replay (Some 60) sample.issues mail.init)
           = VBool (bool_decide (3599999 < e))).
Proof.
  split; [|split].
  - apply (proj1 (isValidToken_after_issues (Some 60) sample.issues
                    "never-issued" 3599999)).
    intros [H|[]]; discriminate H.
  - apply (proj1 (isValidToken_after_issues (Some 60) sample.issues
                    "constructor" 3599999)).
    intros [H|[]]; discriminate H.
  - apply (proj2 (isValidToken_after_issues (Some 60) sample.issues
                    "tok" 3599999)).
    by left.
Defined.

(** C9, as stated, fails: for the payload [null] the token reads as
    invalid before its expiry, but the value returned is [null], not
    [false]. *)
Lemma isValidToken_null_payload_returns_null :
  let m := (mail.genToken (Some 60) 0 "tok" VNull mail.init).1 in
  (mail.genToken (Some 60) 0 "tok" VNull mail.init).2 = Ok "tok"%string
  /\ mail.ends m !! "tok" = Some 3600000
  /\ mail.isValidToken 0 "tok" m = VNull
  /\ mail.isValidToken 0 "tok" m <> VBool false.
Proof. repeat split; vm_compute; try reflexivity; discriminate. Qed.

Lemma falsy_payload_token_reads_invalid_witness :
  exists m' : mail.t,
    mail.genToken (Some 60) 0 "tok" (VNum 0) mail.init = (m', Ok "tok"%string)
    /\ mail.ends m' !! "tok" = Some 3600000
    /\ forall now : Z,
         mail.isValidToken now "tok" m' = VNum 0
         /\ truthy (mail.isValidToken now "tok" m') = false.
Proof.
  apply (falsy_payload_token_reads_invalid (Some 60) 0 "tok" (VNum 0)
           mail.init); reflexivity.
Defined.

(** * Further properties *)

(** ** Lists of ids *)

Lemma includes_str_false (l : list value) (i : string) :
  ~ In (VStr i) l -> includes l (VStr i) = false.
Proof.
  intros Hnin. destruct (includes l (VStr i)) eqn:E; [|reflexivity].
  apply includes_In in E. contradiction.
Qed.

Lemma includes_str_true (l : list value) (i : string) :
  In (VStr i) l -> includes l (VStr i) = true.
Proof.
  intros Hin. unfold includes. apply existsb_exists.
  exists (VStr i). split; [exact Hin|]. by apply same_value_zero_str.
Qed.

Lemma pull_fresh (l : list value) (i : string) :
  ~ In (VStr i) l -> pull l (VStr i) = l.
Proof.
  induction l as [|x l IH]; intros Hnin; [reflexivity|].
  cbn [pull List.filter].
  destruct (same_value_zero x (VStr i)) eqn:E; cbn [negb].
  - apply same_value_zero_str in E. exfalso. apply Hnin. by left.
  - f_equal. apply IH. intros H. apply Hnin. by right.
Qed.

Lemma pull_app_fresh (l : list value) (i : string) :
  ~ In (VStr i) l -> pull (l ++ [VStr i]) (VStr i) = l.
Proof.
  intros Hnin. unfold pull. rewrite List.filter_app.
  fold (pull l (VStr i)). rewrite pull_fresh by exact Hnin.
  cbn [List.filter].
  rewrite (proj2 (same_value_zero_str i (VStr i)) eq_refl).
  cbn [negb]. apply app_nil_r.
Qed.

Lemma filter_filter_same {A} (f : A -> bool) (l : list A) :
  List.filter f (List.filter f l) = List.filter f l.
Proof.
  induction l as [|x l IH]; [reflexivity|].
  cbn [List.filter]. destruct (f x) eqn:E; [|exact IH].
  cbn [List.filter]. rewrite E. by f_equal.
Qed.

Lemma set_pads_same (g : Group.t) : Group.set_pads (Group.pads g) g = g.
Proof. by destruct g. Qed.

Lemma set_pads_twice (l l' : list value) (g : Group.t) :
  Group.set_pads l (Group.set_pads l' g) = Group.set_pads l g.
Proof. reflexivity. Qed.

(** ** Pad model: what each call does to the store *)

Section PadFurther.

Variables PPREFIX UPREFIX GPREFIX : string.

Lemma addSetInit_name_group (params : Params.t) (s : db) :
  (required_fields_ok params
   /\ common.addSetInit params ["name"; "group"]%string s = (s, Ok tt))
  \/ (exists f : string,
        common.addSetInit params ["name"; "group"]%string s
        = (s, Thrown (MissingField f))).
Proof.
  unfold required_fields_ok. cbn.
  destruct (common.missing_or_empty (Params.name params));
    [right; by eexists|].
  destruct (common.missing_or_empty (Params.group params));
    [right; by eexists|].
  by left.
Qed.

Lemma fn_set_eq (p : Pad.t) (s : db) :
  let s1 := <[PPREFIX +:+ ToString (Pad._id p) := RPad p]> s in
  fn_set PPREFIX GPREFIX p s =
    match s1 !! (GPREFIX +:+ ToString (Pad.group p)) with
    | None => (s1, Err (StoreNotFound (GPREFIX +:+ ToString (Pad.group p))))
    | Some (RGroup gr) =>
        if includes (Group.pads gr) (Pad._id p) then (s1, Ok p)
        else (<[GPREFIX +:+ ToString (Group._id gr) :=
                  RGroup (Group.set_pads (Group.pads gr ++ [Pad._id p]) gr)]>
                s1,
              Ok p)
    | Some _ =>
        (s1, Thrown (TypeError "Cannot read property 'push' of undefined"))
    end.
Proof.
  intros s1. unfold fn_set, indexGroups. run_M. cbn [rec_group rec_id].
  fold s1. destruct (s1 !! _) as [[u|gr|q]|]; try reflexivity.
  destruct (includes _ _); reflexivity.
Qed.

Lemma checkSet_eq (p : Pad.t) (s : db) :
  checkSet PPREFIX UPREFIX GPREFIX p s =
    if negb (Nat.eqb (length (Pad.users p)) 0)
       && negb (forallb (fun k => bool_decide (is_Some (s !! k)))
                  (List.map (fun v => UPREFIX +:+ ToString v) (Pad.users p)))
    then (s, Err (Error "some users not found"))
    else fn_set PPREFIX GPREFIX p s.
Proof.
  unfold checkSet. destruct (negb (Nat.eqb _ _)); [|reflexivity].
  run_M. destruct (forallb _ _); reflexivity.
Qed.

Lemma pad_set_eq (cuid : string) (params : Params.t) (s : db) :
  required_fields_ok params ->
  pad_set PPREFIX UPREFIX GPREFIX cuid params s =
    if truthy (Params._id params)
       && negb (bool_decide
                  (is_Some (s !! (PPREFIX +:+ ToString (Params._id params)))))
    then (s, Err (Error "pad does not exist"))
    else checkSet PPREFIX UPREFIX GPREFIX
           (Pad.set_id (pad_set_id cuid params) (assignProps params)) s.
Proof.
  intros Hreq. unfold pad_set_id.
  destruct (truthy (Params._id params)) eqn:Hid.
  - rewrite pad_set_update by assumption.
    destruct (bool_decide _); reflexivity.
  - by rewrite pad_set_create.
Qed.

Lemma fn_set_frame (p : Pad.t) (s s' : db) (r : result Pad.t) (k : string) :
  fn_set PPREFIX GPREFIX p s = (s', r) ->
  k <> PPREFIX +:+ ToString (Pad._id p) ->
  (forall b : string, k <> GPREFIX +:+ b) ->
  s' !! k = s !! k.
Proof.
  intros Hrun Hp Hg. rewrite fn_set_eq in Hrun. cbv zeta in Hrun.
  destruct (_ !! (GPREFIX +:+ _)) as [[u|gr|q]|] in Hrun;
    [| destruct (includes _ _) in Hrun | |];
    injection Hrun as <- _;
    rewrite ?(lookup_insert_ne _ (GPREFIX +:+ _))
      by (intros H; symmetry in H; by apply Hg in H);
    by rewrite lookup_insert_ne.
Qed.

Lemma pad_set_outcomes (cuid : string) (params : Params.t) (s s' : db)
    (r : result Pad.t) :
  pad_set PPREFIX UPREFIX GPREFIX cuid params s = (s', r) ->
  (s' = s
   /\ ((exists f, r = Thrown (MissingField f))
       \/ r = Err (Error "pad does not exist")
       \/ r = Err (Error "some users not found")))
  \/ (required_fields_ok params
      /\ (truthy (Params._id params) = true ->
          is_Some (s !! (PPREFIX +:+ ToString (Params._id params))))
      /\ users_exist UPREFIX (assignProps params) s
      /\ fn_set PPREFIX GPREFIX
           (Pad.set_id (pad_set_id cuid params) (assignProps params)) s
         = (s', r)).
Proof.
  intros Hrun.
  destruct (addSetInit_name_group params s) as [[Hreq _]|[f Hthrow]].
  2:{ left. unfold pad_set in Hrun. unfold mbind at 1 in Hrun.
      unfold M_bind in Hrun. rewrite Hthrow in Hrun.
      injection Hrun as <- <-. split; [reflexivity|]. left. by eexists. }
  rewrite pad_set_eq in Hrun by exact Hreq.
  destruct (truthy (Params._id params)) eqn:Hid; cbn [andb] in Hrun.
  - destruct (bool_decide _) eqn:Hex in Hrun; cbn [negb] in Hrun.
    2:{ left. injection Hrun as <- <-. split; [reflexivity|]. right. by left. }
    apply bool_decide_eq_true in Hex.
    rewrite checkSet_eq in Hrun. cbn [Pad.set_id Pad.users] in Hrun.
    destruct (negb (Nat.eqb _ _)) eqn:Hlen in Hrun; cbn [andb] in Hrun.
    + destruct (forallb _ _) eqn:Hall in Hrun; cbn [negb] in Hrun.
      2:{ left. injection Hrun as <- <-. split; [reflexivity|].
          right. by right. }
      right. split; [exact Hreq|]. split; [done|]. split; [|exact Hrun].
      intros v Hv. rewrite forallb_forall in Hall.
      eapply bool_decide_eq_true, Hall, in_map_iff. eauto.
    + right. split; [exact Hreq|]. split; [done|]. split; [|exact Hrun].
      intros v Hv. apply negb_false_iff, Nat.eqb_eq in Hlen.
      destruct (Pad.users (assignProps params)); [destruct Hv | discriminate].
  - rewrite checkSet_eq in Hrun. cbn [Pad.set_id Pad.users] in Hrun.
    destruct (negb (Nat.eqb _ _)) eqn:Hlen in Hrun; cbn [andb] in Hrun.
    + destruct (forallb _ _) eqn:Hall in Hrun; cbn [negb] in Hrun.
      2:{ left. injection Hrun as <- <-. split; [reflexivity|].
          right. by right. }
      right. split; [exact Hreq|]. split; [done|]. split; [|exact Hrun].
      intros v Hv. rewrite forallb_forall in Hall.
      eapply bool_decide_eq_true, Hall, in_map_iff. eauto.
    + right. split; [exact Hreq|]. split; [done|]. split; [|exact Hrun].
      intros v Hv. apply negb_false_iff, Nat.eqb_eq in Hlen.
      destruct (Pad.users (assignProps params)); [destruct Hv | discriminate].
Qed.

Lemma pad_del_eq (key : string) (s : db) :
  pad_del PPREFIX GPREFIX key s =
    match s !! (PPREFIX +:+ key) with
    | None => (s, Err (StoreNotFound (PPREFIX +:+ key)))
    | Some r =>
        let s1 := delete (PPREFIX +:+ key) s in
        match s1 !! (GPREFIX +:+ ToString (rec_group r)) with
        | None =>
            (s1, Err (StoreNotFound (GPREFIX +:+ ToString (rec_group r))))
        | Some (RGroup gr) =>
            (<[GPREFIX +:+ ToString (Group._id gr) :=
                 RGroup (Group.set_pads (pull (Group.pads gr) (rec_id r)) gr)]>
               s1,
             Ok tt)
        | Some g => (<[GPREFIX +:+ ToString (rec_id g) := g]> s1, Ok tt)
        end
    end.
Proof.
  unfold pad_del, common.getDel, indexGroups. run_M.
  destruct (s !! (PPREFIX +:+ key)) as [r|]; [|reflexivity].
  cbv zeta. destruct (delete _ s !! _) as [[u|gr|q]|]; reflexivity.
Qed.

(** Pad keys and group keys never collide. *)
Hypothesis prefix_disjoint :
  forall a b : string, PPREFIX +:+ a <> GPREFIX +:+ b.

Lemma fn_set_stored_exact (p : Pad.t) (g : Group.t) (s : db) :
  group_stored GPREFIX (Pad.group p) g s ->
  let s1 := <[PPREFIX +:+ ToString (Pad._id p) := RPad p]> s in
  fn_set PPREFIX GPREFIX p s =
    (if includes (Group.pads g) (Pad._id p) then s1
     else <[GPREFIX +:+ ToString (Pad.group p) :=
              RGroup (Group.set_pads (Group.pads g ++ [Pad._id p]) g)]> s1,
     Ok p).
Proof.
  intros [Hg Hid] s1. rewrite fn_set_eq. fold s1.
  unfold s1 at 1. rewrite lookup_insert_ne by apply prefix_disjoint.
  rewrite Hg, Hid. by destruct (includes _ _).
Qed.

Lemma pad_set_stored_exact (cuid : string) (params : Params.t)
    (g : Group.t) (s : db) :
  required_fields_ok params ->
  (truthy (Params._id params) = true ->
   is_Some (s !! (PPREFIX +:+ ToString (Params._id params)))) ->
  users_exist UPREFIX (assignProps params) s ->
  group_stored GPREFIX (Params.group params) g s ->
  let id := pad_set_id cuid params in
  let p := Pad.set_id id (assignProps params) in
  let s1 := <[PPREFIX +:+ ToString id := RPad p]> s in
  pad_set PPREFIX UPREFIX GPREFIX cuid params s =
    (if includes (Group.pads g) id then s1
     else <[GPREFIX +:+ ToString (Params.group params) :=
              RGroup (Group.set_pads (Group.pads g ++ [id]) g)]> s1,
     Ok p).
Proof.
  intros Hreq Hex Hu Hg id p s1.
  rewrite pad_set_eq by exact Hreq.
  destruct (truthy (Params._id params)) eqn:Hid; cbn [andb].
  - rewrite bool_decide_eq_true_2 by (by apply Hex). cbn [negb].
    fold id p. rewrite checkSet_users_exist by exact Hu.
    by rewrite (fn_set_stored_exact p g s Hg).
  - fold id p. rewrite checkSet_users_exist by exact Hu.
    by rewrite (fn_set_stored_exact p g s Hg).
Qed.

(** X1. Whatever [pad.set] answers with one of its own errors ("pad does
    not exist", "some users not found") or rejects for a missing required
    field, it has written nothing: the store is the one it started from. *)
Theorem pad_set_rejection_writes_nothing
    (cuid : string) (params : Params.t) (s s' : db) (r : result Pad.t) :
  pad_set PPREFIX UPREFIX GPREFIX cuid params s = (s', r) ->
  (exists msg, r = Err (Error msg)) \/ (exists f, r = Thrown (MissingField f)) ->
  s' = s.
Proof.
  intros Hrun Hr.
  destruct (pad_set_outcomes _ _ _ _ _ Hrun)
    as [[-> _]|(_ & _ & _ & Hfn)]; [reflexivity|].
  rewrite fn_set_eq in Hfn. cbv zeta in Hfn.
  destruct (_ !! (GPREFIX +:+ _)) as [[u|gr|q]|] in Hfn;
    [| destruct (includes _ _) in Hfn | |];
    injection Hfn as _ <-; destruct Hr as [[? H]|[? H]]; discriminate H.
Qed.

(** X2. A successful [pad.set] is sound: the pad returned is the
    normalised one with its id, the required fields were present, an
    updated pad already had a record, every listed user has a record, the
    group key held a group record, and the pad returned is what the store
    now holds under the pad key. *)
Theorem pad_set_success_sound
    (cuid : string) (params : Params.t) (s s' : db) (p : Pad.t) :
  pad_set PPREFIX UPREFIX GPREFIX cuid params s = (s', Ok p) ->
  p = Pad.set_id (pad_set_id cuid params) (assignProps params)
  /\ required_fields_ok params
  /\ (truthy (Params._id params) = true ->
      is_Some (s !! (PPREFIX +:+ ToString (Params._id params))))
  /\ users_exist UPREFIX p s
  /\ (exists g : Group.t,
        s !! (GPREFIX +:+ ToString (Params.group params)) = Some (RGroup g))
  /\ s' !! (PPREFIX +:+ ToString (Pad._id p)) = Some (RPad p).
Proof.
  intros Hrun.
  destruct (pad_set_outcomes _ _ _ _ _ Hrun)
    as [[_ [[f H]|[H|H]]]|(Hreq & Hex & Hu & Hfn)]; try discriminate H.
  rewrite fn_set_eq in Hfn. cbv zeta in Hfn.
  rewrite lookup_insert_ne in Hfn by apply prefix_disjoint.
  cbn [Pad.set_id Pad.group Pad._id] in Hfn.
  destruct (s !! (GPREFIX +:+ _)) as [[u|gr|q]|] eqn:Hg in Hfn;
    try discriminate Hfn.
  assert (p = Pad.set_id (pad_set_id cuid params) (assignProps params)
          /\ s' !! (PPREFIX +:+ ToString (pad_set_id cuid params))
             = Some (RPad p)) as [Hp Hs'].
  { destruct (includes _ _) in Hfn; injection Hfn as <- <-;
      (split; [reflexivity|]).
    - apply lookup_insert_eq.
    - rewrite lookup_insert_ne
        by (intros H; symmetry in H; revert H; apply prefix_disjoint).
      apply lookup_insert_eq. }
  split; [exact Hp|]. split; [exact Hreq|]. split; [exact Hex|].
  split; [by rewrite Hp|]. split; [by eexists|].
  rewrite Hp at 1. exact Hs'.
Qed.

(** X3. [pad.set] and [pad.del] write to no key other than the pad's own
    key and group keys: a key that is neither, such as any user record or
    any other pad's record, has the same content afterwards, whatever the
    outcome of the call. *)
Theorem pad_writes_confined (k : string) :
  (forall b : string, k <> GPREFIX +:+ b) ->
  (forall (cuid : string) (params : Params.t) (s : db),
      k <> PPREFIX +:+ ToString (pad_set_id cuid params) ->
      (pad_set PPREFIX UPREFIX GPREFIX cuid params s).1 !! k = s !! k)
  /\ (forall (key : string) (s : db),
      k <> PPREFIX +:+ key ->
      (pad_del PPREFIX GPREFIX key s).1 !! k = s !! k).
Proof.
  intros Hg. split.
  - intros cuid params s Hp.
    destruct (pad_set PPREFIX UPREFIX GPREFIX cuid params s) as [s' r] eqn:E.
    cbn [fst].
    destruct (pad_set_outcomes _ _ _ _ _ E)
      as [[-> _]|(_ & _ & _ & Hfn)]; [reflexivity|].
    by apply (fn_set_frame _ _ _ _ _ Hfn).
  - intros key s Hp. rewrite pad_del_eq.
    destruct (s !! (PPREFIX +:+ key)) as [r|]; [|reflexivity].
    cbv zeta. destruct (delete _ s !! _) as [[u|gr|q]|]; cbn [fst];
      rewrite ?(lookup_insert_ne _ (GPREFIX +:+ _))
        by (intros H; symmetry in H; by apply Hg in H);
      by rewrite lookup_delete_ne.
Qed.

(** X4. Failures of [pad.del]. With no record under the pad key it fails
    with the store's NotFound and changes nothing. With a pad record whose
    group has no record it fails with NotFound for the group key after the
    pad record has been deleted: the deletion is not undone. *)
Theorem pad_del_failures (key : string) (s : db) :
  (s !! (PPREFIX +:+ key) = None ->
   pad_del PPREFIX GPREFIX key s
   = (s, Err (StoreNotFound (PPREFIX +:+ key))))
  /\ (forall p : Pad.t,
      s !! (PPREFIX +:+ key) = Some (RPad p) ->
      s !! (GPREFIX +:+ ToString (Pad.group p)) = None ->
      pad_del PPREFIX GPREFIX key s
      = (delete (PPREFIX +:+ key) s,
         Err (StoreNotFound (GPREFIX +:+ ToString (Pad.group p))))
      /\ delete (PPREFIX +:+ key) s !! (PPREFIX +:+ key) = None).
Proof.
  split.
  - intros Hnone. rewrite pad_del_eq, Hnone. reflexivity.
  - intros p Hp Hg. split; [|apply lookup_delete_eq].
    rewrite pad_del_eq, Hp. cbv zeta. cbn [rec_group].
    assert (delete (PPREFIX +:+ key) s !! (GPREFIX +:+ ToString (Pad.group p))
            = None) as ->; [|reflexivity].
    rewrite lookup_delete. by case_decide.
Qed.

(** X5. Round trip. Creating a pad under a fresh id in an existing group,
    reading it, and deleting it again: the create succeeds, [pad.get]
    returns the pad created, [pad.del] succeeds and gives back exactly the
    store from before the create, where [pad.get] fails with NotFound. *)
Theorem create_get_delete_round_trip
    (cuid : string) (params : Params.t) (g : Group.t) (s : db) :
  truthy (Params._id params) = false ->
  required_fields_ok params ->
  users_exist UPREFIX (assignProps params) s ->
  group_stored GPREFIX (Params.group params) g s ->
  s !! (PPREFIX +:+ cuid) = None ->
  ~ In (VStr cuid) (Group.pads g) ->
  let p := Pad.set_id (VStr cuid) (assignProps params) in
  exists s1 : db,
    pad_set PPREFIX UPREFIX GPREFIX cuid params s = (s1, Ok p)
    /\ pad_get PPREFIX cuid s1 = (s1, Ok (RPad p))
    /\ pad_del PPREFIX GPREFIX cuid s1 = (s, Ok tt)
    /\ pad_get PPREFIX cuid s = (s, Err (StoreNotFound (PPREFIX +:+ cuid))).
Proof.
  intros Hid Hreq Hu Hg Hfresh Hnin p.
  pose proof (pad_set_stored_exact cuid params g s Hreq) as Hset.
  unfold pad_set_id in Hset. rewrite Hid in Hset. cbv zeta in Hset.
  rewrite includes_str_false in Hset by exact Hnin.
  eexists. split; [apply Hset; [discriminate | exact Hu | exact Hg]|].
  destruct Hg as [Hg Hgid].
  set (gk := GPREFIX +:+ ToString (Params.group params)).
  set (pk := PPREFIX +:+ cuid).
  assert (pk <> gk) as Hne by apply prefix_disjoint.
  split; [|split].
  - unfold pad_get, common.getDel. run_M. cbn [ToString]. fold pk.
    rewrite lookup_insert_ne by congruence.
    rewrite lookup_insert_eq. reflexivity.
  - rewrite pad_del_eq. cbn [ToString]. fold pk.
    rewrite lookup_insert_ne by congruence.
    rewrite lookup_insert_eq. cbv zeta. cbn [rec_group rec_id].
    fold p. change (Pad.group p) with (Params.group params). fold gk.
    rewrite lookup_delete_ne by exact Hne.
    rewrite lookup_insert_eq.
    change (Pad._id p) with (VStr cuid).
    cbn [Group.set_pads Group._id Group.pads].
    rewrite pull_app_fresh by exact Hnin. rewrite Hgid. fold gk.
    f_equal. apply map_eq. intros k.
    destruct (decide (k = gk)) as [->|Hk].
    + rewrite lookup_insert_eq. subst gk. rewrite Hg. by destruct g.
    + rewrite lookup_insert_ne by congruence.
      destruct (decide (k = pk)) as [->|Hk'].
      * by rewrite lookup_delete_eq.
      * rewrite lookup_delete_ne by congruence.
        rewrite lookup_insert_ne by congruence.
        by rewrite lookup_insert_ne by congruence.
  - unfold pad_get, common.getDel. run_M. rewrite Hfresh. reflexivity.
Qed.

Lemma assignProps_of_pad (id : value) (params : Params.t) :
  assignProps (params_of_pad (Pad.set_id id (assignProps params)))
  = assignProps params.
Proof.
  unfold assignProps, params_of_pad.
  cbn [Pad.set_id Pad._id Pad.name Pad.group Pad.users Pad.visibility
       Pad.password Pad.readonly Params.name Params.group Params.users
       Params.visibility Params.password Params.readonly].
  assert (forall v : value,
            (let w := if isString v then v else VNull in
             if isString w then w else VNull)
            = if isString v then v else VNull) as Hstr
    by (intros v; by destruct v).
  assert (forall v : value,
            (let w := if isBoolean v then v else VNull in
             if isBoolean w then w else VNull)
            = if isBoolean v then v else VNull) as Hbool
    by (intros v; by destruct v).
  cbv zeta in Hstr, Hbool. rewrite Hstr, Hbool. clear Hstr Hbool.
  destruct (Params.visibility params) as [| | | |v| |]; try reflexivity.
  cbn [isString andb strict_eq_str].
  destruct (String.eqb_spec v "restricted") as [->|Hv].
  - cbn. destruct (Params.users params); cbn; try reflexivity.
    by rewrite filter_filter_same.
  - cbn [andb]. destruct (includes _ (VStr v)) eqn:Hinc.
    + cbn [isString andb strict_eq_str isArray elements].
      rewrite Hinc. apply String.eqb_neq in Hv. rewrite Hv. reflexivity.
    + reflexivity.
Qed.

(** X6. The index entry. Under the conditions for success, [pad.set] leaves
    the group record with the pad id appended to [pads] when it was not
    listed and unchanged when it was; nothing else in the group record
    changes, and a duplicate-free [pads] stays duplicate-free (ids being
    strings). *)
Theorem pad_set_index_entry
    (cuid : string) (params : Params.t) (g : Group.t) (s : db) :
  required_fields_ok params ->
  (truthy (Params._id params) = true ->
   is_Some (s !! (PPREFIX +:+ ToString (Params._id params)))) ->
  users_exist UPREFIX (assignProps params) s ->
  group_stored GPREFIX (Params.group params) g s ->
  let id := pad_set_id cuid params in
  exists (s' : db) (g' : Group.t),
    pad_set PPREFIX UPREFIX GPREFIX cuid params s
    = (s', Ok (Pad.set_id id (assignProps params)))
    /\ s' !! (GPREFIX +:+ ToString (Params.group params)) = Some (RGroup g')
    /\ g' = Group.set_pads
              (if includes (Group.pads g) id then Group.pads g
               else Group.pads g ++ [id]) g
    /\ (forall i : string,
          id = VStr i ->
          List.NoDup (Group.pads g) -> List.NoDup (Group.pads g')).
Proof.
  intros Hreq Hex Hu Hg id.
  pose proof (pad_set_stored_exact cuid params g s Hreq Hex Hu Hg) as Hset.
  cbv zeta in Hset. fold id in Hset. destruct Hg as [Hg Hgid].
  destruct (includes (Group.pads g) id) eqn:Hinc.
  - exists (<[PPREFIX +:+ ToString id :=
               RPad (Pad.set_id id (assignProps params))]> s), g.
    split; [exact Hset|]. split; [|split].
    + rewrite lookup_insert_ne by apply prefix_disjoint. exact Hg.
    + by rewrite set_pads_same.
    + intros i _ Hnd. exact Hnd.
  - eexists _, _. split; [exact Hset|]. split; [apply lookup_insert_eq|].
    split; [reflexivity|].
    intros i Hi Hnd. cbn [Group.set_pads Group.pads].
    apply List.NoDup_app;
      [exact Hnd | apply List.NoDup_cons; [intros [] | apply List.NoDup_nil] |].
    intros a Ha [<-|[]]. rewrite Hi in *.
    by rewrite includes_str_true in Hinc.
Qed.

(** X7. Moving a pad. An update that names another existing group
    succeeds and lists the pad id in the new group, and the record of the
    group that listed the pad before is left as it was: the id stays in
    the old group's [pads]. *)
Theorem update_to_other_group_keeps_old_entry
    (cuid b : string) (params : Params.t) (g gold : Group.t) (s : db) :
  truthy (Params._id params) = true ->
  required_fields_ok params ->
  is_Some (s !! (PPREFIX +:+ ToString (Params._id params))) ->
  users_exist UPREFIX (assignProps params) s ->
  group_stored GPREFIX (Params.group params) g s ->
  GPREFIX +:+ b <> GPREFIX +:+ ToString (Params.group params) ->
  s !! (GPREFIX +:+ b) = Some (RGroup gold) ->
  In (Params._id params) (Group.pads gold) ->
  exists (s' : db) (g' : Group.t),
    pad_set PPREFIX UPREFIX GPREFIX cuid params s
    = (s', Ok (Pad.set_id (Params._id params) (assignProps params)))
    /\ s' !! (GPREFIX +:+ b) = Some (RGroup gold)
    /\ s' !! (GPREFIX +:+ ToString (Params.group params)) = Some (RGroup g')
    /\ In (Params._id params) (Group.pads g').
Proof.
  intros Hid Hreq Hex Hu Hg Hne Hold Hin.
  pose proof (pad_set_stored_exact cuid params g s Hreq (fun _ => Hex) Hu Hg)
    as Hset.
  unfold pad_set_id in Hset. rewrite Hid in Hset. cbv zeta in Hset.
  destruct Hg as [Hg Hgid].
  destruct (includes (Group.pads g) (Params._id params)) eqn:Hinc.
  - eexists _, g. split; [exact Hset|].
    rewrite !lookup_insert_ne by apply prefix_disjoint.
    split; [exact Hold|]. split; [exact Hg | by apply includes_In].
  - eexists _, _. split; [exact Hset|].
    rewrite lookup_insert_eq, lookup_insert_ne by congruence.
    rewrite lookup_insert_ne by apply prefix_disjoint.
    split; [exact Hold|]. split; [reflexivity|].
    cbn [Group.set_pads Group.pads]. apply in_or_app. right. by left.
Qed.

(** X8. Saving back what was read. Handing [pad.set] a stored pad as its
    [params] (a pad that came out of [pad.set], with a non-empty string
    id, listed by its group, its users still registered) succeeds with
    that same pad and leaves the store exactly as it was. *)
Theorem resave_stored_pad_is_noop
    (cuid i : string) (params0 : Params.t) (g : Group.t) (s : db) :
  let p := Pad.set_id (VStr i) (assignProps params0) in
  i <> ""%string ->
  required_fields_ok params0 ->
  s !! (PPREFIX +:+ i) = Some (RPad p) ->
  users_exist UPREFIX p s ->
  group_stored GPREFIX (Pad.group p) g s ->
  In (VStr i) (Group.pads g) ->
  pad_set PPREFIX UPREFIX GPREFIX cuid (params_of_pad p) s = (s, Ok p).
Proof.
  intros p Hi Hreq Hp Hu Hg Hin.
  assert (truthy (VStr i) = true) as Htr
    by (cbn; by apply negb_true_iff, String.eqb_neq).
  pose proof (pad_set_stored_exact cuid (params_of_pad p) g s) as Hset.
  unfold pad_set_id in Hset.
  change (Params._id (params_of_pad p)) with (VStr i) in Hset.
  rewrite Htr in Hset. cbv zeta in Hset.
  unfold p in Hset at 2 3 4 5. rewrite !assignProps_of_pad in Hset.
  fold p in Hset. rewrite includes_str_true in Hset by exact Hin.
  cbn [ToString] in Hset. rewrite (insert_id s _ _ Hp) in Hset.
  rewrite Hset; [| exact Hreq | intros _; by eexists | exact Hu | exact Hg].
  unfold p. by rewrite assignProps_of_pad.
Qed.

End PadFurther.

(** ** [assignProps] as a normal form *)

(** X9. The pad built by [assignProps] keeps the data-model invariant:
    every entry of [users] is a string, and [users] is non-empty only when
    the stored [visibility] is 'restricted'. *)
Theorem assignProps_users_invariant (params : Params.t) :
  let u := assignProps params in
  (forall v : value, In v (Pad.users u) -> exists login : string, v = VStr login)
  /\ (Pad.users u <> [] -> Pad.visibility u = VStr "restricted").
Proof.
  unfold assignProps. cbn [Pad.users Pad.visibility]. split.
  - intros v Hv.
    destruct (strict_eq_str _ _ && isArray _); [|destruct Hv].
    apply filter_In in Hv as [_ Hs]. destruct v; try discriminate Hs.
    by eexists.
  - intros Hne.
    destruct (Params.visibility params) as [| | | |w| |];
      cbn [strict_eq_str andb] in Hne;
      try (exfalso; apply Hne; reflexivity).
    destruct (String.eqb w "restricted") eqn:E.
    + apply String.eqb_eq in E. by subst w.
    + exfalso. by apply Hne.
Qed.

(** X10. [assignProps] is idempotent: applied to the pad it has built,
    read as a [params] object, it builds that same pad again. *)
Theorem assignProps_idempotent (params : Params.t) :
  assignProps (params_of_pad (assignProps params)) = assignProps params.
Proof.
  rewrite <- (assignProps_of_pad VUndefined params) at 2.
  by destruct (assignProps params).
Qed.

(** ** Credential check: what the caller can be told *)

Section AuthFurther.

Variable UPREFIX : string.
Variable hashPassword : string -> string -> option error * option User.hashed.

(** X11. No success without a matching hash. Whatever [hashPassword]
    does, every invocation of the callback of [localFn] that carries no
    error carries the record stored for that login, and [hashPassword] has
    produced, for the stored salt and the given password, a result whose
    hash equals the stored hash. *)
Theorem localFn_success_requires_match
    (s : db) (login password : string) (c : call auth_res) :
  In c (calls (localFn UPREFIX hashPassword s login password invoke)) ->
  call_err c = None ->
  exists (u : record) (stored r : User.hashed),
    s !! (UPREFIX +:+ login) = Some u
    /\ rec_password u = Some stored
    /\ (hashPassword (User.salt stored) password).2 = Some r
    /\ User.hash r = User.hash stored
    /\ call_res c = Some (ResUser u).
Proof.
  unfold localFn, user_get, db_get.
  destruct (s !! (UPREFIX +:+ login)) as [u|] eqn:Hu.
  2:{ intros [<-|[]]. discriminate. }
  unfold isPasswordValid.
  destruct (rec_password u) as [stored|] eqn:Hp; [|intros []].
  destruct (hashPassword (User.salt stored) password) as [err res] eqn:Hh.
  intros Hin Herr. exists u, stored.
  assert (exists r, res = Some r /\ User.hash r = User.hash stored
                    /\ call_res c = Some (ResUser u)) as (r & -> & Heq & Hc).
  { destruct err as [e|], res as [r|]; unfold seq, invoke, skip, raise in Hin;
      cbn [thrown calls app from_option id negb] in Hin.
    - destruct (String.eqb_spec (User.hash r) (User.hash stored)) as [Heq|];
        cbn [calls thrown from_option id negb app] in Hin;
        destruct Hin as [<-|[<-|[]]]; try discriminate Herr.
      by exists r.
    - destruct Hin as [<-|[]]. discriminate Herr.
    - destruct (String.eqb_spec (User.hash r) (User.hash stored)) as [Heq|];
        cbn [calls thrown from_option id negb app] in Hin;
        destruct Hin as [<-|[]]; try discriminate Herr.
      by exists r.
    - destruct Hin. }
  exists r. by rewrite Hh.
Qed.

(** X12. A hashing error seen from [localFn]. When [hashPassword] reports
    an error for a stored user, the caller gets that error first; with no
    hash result the run then ends in a TypeError, and with a hash result
    the caller is called a second time, with the verdict of the
    comparison: the user record if the hashes match, "password is not
    correct" otherwise. *)
Theorem localFn_hash_error
    (s : db) (login password : string) (u : record)
    (stored : User.hashed) (e : error) (res : option User.hashed) :
  s !! (UPREFIX +:+ login) = Some u ->
  rec_password u = Some stored ->
  hashPassword (User.salt stored) password = (Some e, res) ->
  localFn UPREFIX hashPassword s login password invoke =
    match res with
    | None =>
        Run [Call (Some e) None]
            (Some (TypeError "Cannot read property 'hash' of undefined"))
    | Some r =>
        Run [Call (Some e) None;
             if String.eqb (User.hash r) (User.hash stored)
             then Call None (Some (ResUser u))
             else Call (Some (Error "password is not correct")) (Some ResFalse)]
            None
    end.
Proof.
  intros Hu Hp Hh. unfold localFn, user_get, db_get. rewrite Hu.
  unfold isPasswordValid. rewrite Hp, Hh.
  destruct res as [r|]; [|reflexivity].
  by destruct (String.eqb _ _).
Qed.

(** X13. A record without a password entry. When the record stored for
    the login has no [password] (a record saved without it, or a record of
    another kind), [localFn] throws on reading the salt, before
    [hashPassword] is consulted, and never calls the callback. *)
Theorem localFn_without_password_throws
    (s : db) (login password : string) (u : record) :
  s !! (UPREFIX +:+ login) = Some u ->
  rec_password u = None ->
  localFn UPREFIX hashPassword s login password invoke =
    Run [] (Some (TypeError "Cannot read property 'salt' of undefined")).
Proof.
  intros Hu Hp. unfold localFn, user_get, db_get. rewrite Hu.
  unfold isPasswordValid. by rewrite Hp.
Qed.

End AuthFurther.

(** ** Invitation tokens: the validity window *)

Section TokenFurther.

Variable tokenDuration : option Z.

(** X14. The validity window. A token issued at time [ts] for a truthy
    payload, whatever the maps held before under that string, is valid
    exactly at the times strictly before [ts] plus the configured number
    of minutes; with no usable configuration (NaN or 0) the window is 60
    minutes. At the time of issue it is valid if and only if the duration
    is positive. *)
Theorem token_validity_window
    (ts now : Z) (cuid : string) (v : value) (m : mail.t) :
  isUndefined v = false ->
  truthy v = true ->
  let m' := (mail.genToken tokenDuration ts cuid v m).1 in
  mail.isValidToken now cuid m'
  = VBool (bool_decide (now < ts + mail.duration tokenDuration * 60 * 1000))
  /\ mail.isValidToken ts cuid m'
     = VBool (bool_decide (0 < mail.duration tokenDuration))
  /\ (tokenDuration = None \/ tokenDuration = Some 0 ->
      mail.isValidToken now cuid m'
      = VBool (bool_decide (now < ts + 3600000))).
Proof.
  intros Hdef Htr m'.
  assert (forall t : Z,
            mail.isValidToken t cuid m'
            = VBool (bool_decide
                       (t < ts + mail.duration tokenDuration * 60 * 1000)))
    as Hwin.
  { intros t. unfold m'. rewrite genToken_accepts by exact Hdef.
    unfold mail.isValidToken. cbn [fst mail.tokens mail.ends].
    rewrite !lookup_insert_eq. unfold js_and.
    by rewrite Htr. }
  split; [apply Hwin|]. split.
  - rewrite Hwin. f_equal. apply bool_decide_ext. lia.
  - intros Hd. rewrite Hwin. f_equal. apply bool_decide_ext.
    unfold mail.duration. destruct Hd as [-> | ->]; cbn; lia.
Qed.

(** X15. Issuing other tokens changes nothing for a token: after any
    further calls to [genToken] that do not produce the string [t] again,
    [isValidToken] answers for [t] what it answered before. *)
Theorem isValidToken_unaffected_by_other_issues
    (h : list mail.issue) (m : mail.t) (t : string) (now : Z) :
  ~ In t (List.map mail.id h) ->
  mail.isValidToken now t (mail.replay tokenDuration h m)
  = mail.isValidToken now t m.
Proof.
  revert m. induction h as [|i h IH]; intros m Hnin; [reflexivity|].
  cbn [mail.replay]. rewrite IH by (intros H; apply Hnin; by right).
  assert (mail.id i <> t) as Hne by (intros H; apply Hnin; by left).
  unfold mail.genToken. destruct (isUndefined _); [reflexivity|].
  unfold mail.isValidToken. cbn [fst mail.tokens mail.ends].
  by rewrite !lookup_insert_ne.
Qed.

(** X16. The two maps stay parallel: after any sequence of calls to
    [genToken] from the initial state, a string has a payload entry if and
    only if it has an expiry entry. *)
Theorem token_maps_parallel (h : list mail.issue) (t : string) :
  let m := mail.replay tokenDuration h mail.init in
  is_Some (mail.tokens m !! t) <-> is_Some (mail.ends m !! t).
Proof.
  cbv zeta.
  assert (forall m : mail.t,
            (is_Some (mail.tokens m !! t) <-> is_Some (mail.ends m !! t)) ->
            is_Some (mail.tokens (mail.replay tokenDuration h m) !! t)
            <-> is_Some (mail.ends (mail.replay tokenDuration h m) !! t))
    as Hinv.
  { induction h as [|i h IH]; intros m Hm; [exact Hm|].
    cbn [mail.replay]. apply IH. unfold mail.genToken.
    destruct (isUndefined _); [exact Hm|].
    cbn [fst mail.tokens mail.ends]. rewrite !lookup_insert.
    case_decide; [|exact Hm]. split; intros _; by eexists. }
  apply Hinv. cbn [mail.init mail.tokens mail.ends].
  rewrite !lookup_empty. split; intros [? ?]; discriminate.
Qed.

(** X17. Expiry is final as time passes: for a fixed state of the maps, a
    token that [isValidToken] accepts at some time is accepted at every
    earlier time, so once it is refused it is refused at all later times. *)
Theorem isValidToken_antitone
    (m : mail.t) (t : string) (now later : Z) :
  now <= later ->
  mail.isValidToken later t m = VBool true ->
  mail.isValidToken now t m = VBool true.
Proof.
  intros Hle. unfold mail.isValidToken, js_and.
  set (v := match mail.tokens m !! t with
            | Some v => v
            | None => mail.inherited t
            end).
  destruct (truthy v) eqn:Htr.
  - destruct (mail.ends m !! t) as [e|]; [|discriminate].
    intros H. injection H as H. apply bool_decide_eq_true in H.
    f_equal. apply bool_decide_eq_true. lia.
  - intros Hv. rewrite Hv in Htr. discriminate Htr.
Qed.

End TokenFurther.

(** ** The further properties at sample inputs *)

Lemma pad_set_rejection_writes_nothing_witness :
  (pad_set sample.PPREFIX sample.UPREFIX sample.GPREFIX "c2" sample.doc2
     sample.store).1 = sample.store.
Proof.
  apply (pad_set_rejection_writes_nothing sample.PPREFIX sample.UPREFIX
           sample.GPREFIX "c2" sample.doc2 sample.store _
           (pad_set sample.PPREFIX sample.UPREFIX sample.GPREFIX "c2"
              sample.doc2 sample.store).2).
  - by destruct (pad_set _ _ _ _ _ _).
  - left. exists "some users not found"%string. reflexivity.
Defined.

Lemma pad_set_success_sound_witness :
  let p := Pad.mk (VStr "c1") (VStr "Doc") (VStr "g1") [] (VStr "public")
             VNull VNull in
  p = Pad.set_id (pad_set_id "c1" sample.doc) (assignProps sample.doc)
  /\ required_fields_ok sample.doc
  /\ (truthy (Params._id sample.doc) = true ->
      is_Some (sample.store
               !! (sample.PPREFIX +:+ ToString (Params._id sample.doc))))
  /\ users_exist sample.UPREFIX p sample.store
  /\ (exists g : Group.t,
        sample.store !! (sample.GPREFIX +:+ ToString (Params.group sample.doc))
        = Some (RGroup g))
  /\ (pad_set sample.PPREFIX sample.UPREFIX sample.GPREFIX "c1" sample.doc
        sample.store).1 !! (sample.PPREFIX +:+ ToString (Pad._id p))
     = Some (RPad p).
Proof.
  apply (pad_set_success_sound sample.PPREFIX sample.UPREFIX sample.GPREFIX
           sample_prefix_disjoint "c1" sample.doc sample.store).
  vm_compute. reflexivity.
Defined.

Lemma pad_writes_confined_witness :
  (pad_set sample.PPREFIX sample.UPREFIX sample.GPREFIX "c1" sample.doc
     sample.store).1 !! "mypads:user:alice"
  = sample.store !! "mypads:user:alice"
  /\ (pad_del sample.PPREFIX sample.GPREFIX "p1" sample.store_p1).1
     !! "mypads:user:alice"
     = sample.store_p1 !! "mypads:user:alice".
Proof.
  assert (forall b : string,
            "mypads:user:alice"%string <> sample.GPREFIX +:+ b) as Hk
    by (intros b; unfold sample.GPREFIX; cbn; discriminate).
  split.
  - apply (proj1 (pad_writes_confined sample.PPREFIX sample.UPREFIX
                    sample.GPREFIX "mypads:user:alice" Hk)).
    cbn. discriminate.
  - apply (proj2 (pad_writes_confined sample.PPREFIX sample.UPREFIX
                    sample.GPREFIX "mypads:user:alice" Hk)).
    cbn. discriminate.
Defined.

Lemma pad_del_failures_witness :
  pad_del sample.PPREFIX sample.GPREFIX "p9" sample.store
  = (sample.store, Err (StoreNotFound (sample.PPREFIX +:+ "p9")))
  /\ (pad_del sample.PPREFIX sample.GPREFIX "p1" sample2.store_orphan
      = (delete (sample.PPREFIX +:+ "p1") sample2.store_orphan,
         Err (StoreNotFound
                (sample.GPREFIX +:+ ToString (Pad.group sample2.orphan))))
      /\ delete (sample.PPREFIX +:+ "p1") sample2.store_orphan
         !! (sample.PPREFIX +:+ "p1") = None).
Proof.
  split.
  - apply (pad_del_failures sample.PPREFIX sample.GPREFIX "p9" sample.store).
    reflexivity.
  - apply (proj2 (pad_del_failures sample.PPREFIX sample.GPREFIX "p1"
                    sample2.store_orphan) sample2.orphan); reflexivity.
Defined.

Lemma create_get_delete_round_trip_witness :
  exists s1 : db,
    pad_set sample.PPREFIX sample.UPREFIX sample.GPREFIX "c1" sample.doc
      sample.store
    = (s1, Ok (Pad.set_id (VStr "c1") (assignProps sample.doc)))
    /\ pad_get sample.PPREFIX "c1" s1
       = (s1, Ok (RPad (Pad.set_id (VStr "c1") (assignProps sample.doc))))
    /\ pad_del sample.PPREFIX sample.GPREFIX "c1" s1 = (sample.store, Ok tt)
    /\ pad_get sample.PPREFIX "c1" sample.store
       = (sample.store, Err (StoreNotFound (sample.PPREFIX +:+ "c1"))).
Proof.
  apply (create_get_delete_round_trip sample.PPREFIX sample.UPREFIX
           sample.GPREFIX sample_prefix_disjoint "c1" sample.doc sample.g1
           sample.store).
  - reflexivity.
  - split; reflexivity.
  - intros v [].
  - split; reflexivity.
  - reflexivity.
  - intros [].
Defined.

Lemma pad_set_index_entry_witness :
  exists (s' : db) (g' : Group.t),
    pad_set sample.PPREFIX sample.UPREFIX sample.GPREFIX "c1" sample.doc
      sample.store
    = (s', Ok (Pad.set_id (pad_set_id "c1" sample.doc)
                 (assignProps sample.doc)))
    /\ s' !! (sample.GPREFIX +:+ ToString (Params.group sample.doc))
       = Some (RGroup g')
    /\ g' = Group.set_pads
              (if includes (Group.pads sample.g1) (pad_set_id "c1" sample.doc)
               then Group.pads sample.g1
               else Group.pads sample.g1 ++ [pad_set_id "c1" sample.doc])
              sample.g1
    /\ (forall i : string,
          pad_set_id "c1" sample.doc = VStr i ->
          List.NoDup (Group.pads sample.g1) -> List.NoDup (Group.pads g')).
Proof.
  apply (pad_set_index_entry sample.PPREFIX sample.UPREFIX sample.GPREFIX
           sample_prefix_disjoint "c1" sample.doc sample.g1 sample.store).
  - split; reflexivity.
  - discriminate.
  - intros v [].
  - split; reflexivity.
Defined.

Lemma update_to_other_group_keeps_old_entry_witness :
  exists (s' : db) (g' : Group.t),
    pad_set sample.PPREFIX sample.UPREFIX sample.GPREFIX "c4" sample2.move_p1
      sample2.store_two_groups
    = (s', Ok (Pad.set_id (VStr "p1") (assignProps sample2.move_p1)))
    /\ s' !! (sample.GPREFIX +:+ "g1") = Some (RGroup sample.g1_p1)
    /\ s' !! (sample.GPREFIX +:+ ToString (Params.group sample2.move_p1))
       = Some (RGroup g')
    /\ In (VStr "p1") (Group.pads g').
Proof.
  apply (update_to_other_group_keeps_old_entry sample.PPREFIX sample.UPREFIX
           sample.GPREFIX sample_prefix_disjoint "c4" "g1" sample2.move_p1
           sample2.g2 sample.g1_p1 sample2.store_two_groups).
  - reflexivity.
  - split; reflexivity.
  - by eexists.
  - intros v [].
  - split; reflexivity.
  - cbn. discriminate.
  - reflexivity.
  - by left.
Defined.

Lemma resave_stored_pad_is_noop_witness :
  pad_set sample.PPREFIX sample.UPREFIX sample.GPREFIX "c5"
    (params_of_pad (Pad.set_id (VStr "p1") (assignProps sample.doc)))
    sample.store_p1
  = (sample.store_p1, Ok (Pad.set_id (VStr "p1") (assignProps sample.doc))).
Proof.
  apply (resave_stored_pad_is_noop sample.PPREFIX sample.UPREFIX
           sample.GPREFIX sample_prefix_disjoint "c5" "p1" sample.doc
           sample.g1_p1 sample.store_p1).
  - discriminate.
  - split; reflexivity.
  - reflexivity.
  - intros v [].
  - split; reflexivity.
  - by left.
Defined.

Lemma assignProps_users_invariant_witness :
  (forall v : value,
      In v (Pad.users (assignProps sample.doc2)) ->
      exists login : string, v = VStr login)
  /\ Pad.visibility (assignProps sample.doc2) = VStr "restricted".
Proof.
  split.
  - apply (assignProps_users_invariant sample.doc2).
  - apply (assignProps_users_invariant sample.doc2). discriminate.
Defined.

Lemma localFn_success_requires_match_witness :
  exists (u : record) (stored r : User.hashed),
    sample.store !! (sample.UPREFIX +:+ "alice") = Some u
    /\ rec_password u = Some stored
    /\ (sample.hashPassword (User.salt stored) "secret").2 = Some r
    /\ User.hash r = User.hash stored
    /\ call_res (Call None (Some (ResUser (RUser sample.alice))))
       = Some (ResUser u).
Proof.
  apply (localFn_success_requires_match sample.UPREFIX sample.hashPassword
           sample.store "alice" "secret"
           (Call None (Some (ResUser (RUser sample.alice))))).
  - by left.
  - reflexivity.
Defined.

Lemma localFn_hash_error_witness :
  localFn sample.UPREFIX sample.hashPassword_failing sample.store "alice"
    "secret" invoke
  = Run [Call (Some (Error "hash failed")) None]
        (Some (TypeError "Cannot read property 'hash' of undefined"))
  /\ localFn sample.UPREFIX sample.hashPassword_failing_with_result
       sample.store "alice" "secret" invoke
     = Run [Call (Some (Error "hash failed")) None;
            Call (Some (Error "password is not correct")) (Some ResFalse)]
           None.
Proof.
  split.
  - apply (localFn_hash_error sample.UPREFIX sample.hashPassword_failing
             sample.store "alice" "secret" (RUser sample.alice)
             (User.mkHashed "na" "na:secret") (Error "hash failed") None);
      reflexivity.
  - apply (localFn_hash_error sample.UPREFIX
             sample.hashPassword_failing_with_result
             sample.store "alice" "secret" (RUser sample.alice)
             (User.mkHashed "na" "na:secret") (Error "hash failed")
             (Some (User.mkHashed "na" ""))); reflexivity.
Defined.

Lemma localFn_without_password_throws_witness :
  localFn sample.UPREFIX sample.hashPassword sample2.store_redacted "alice"
    "secret" invoke
  = Run [] (Some (TypeError "Cannot read property 'salt' of undefined")).
Proof.
  apply (localFn_without_password_throws sample.UPREFIX sample.hashPassword
           sample2.store_redacted "alice" "secret"
           (RUser (User.omit_password sample.alice))); reflexivity.
Defined.

Lemma token_validity_window_witness :
  let m' := (mail.genToken (Some 30) 1000 "tok" (VStr "invitation")
               mail.init).1 in
  mail.isValidToken 1800999 "tok" m'
  = VBool (bool_decide (1800999 < 1000 + mail.duration (Some 30) * 60 * 1000))
  /\ mail.isValidToken 1000 "tok" m'
     = VBool (bool_decide (0 < mail.duration (Some 30)))
  /\ (Some 30 = None \/ Some 30 = Some 0 ->
      mail.isValidToken 1800999 "tok" m'
      = VBool (bool_decide (1800999 < 1000 + 3600000))).
Proof.
  apply (token_validity_window (Some 30) 1000 1800999 "tok"
           (VStr "invitation") mail.init); reflexivity.
Defined.

Lemma isValidToken_unaffected_by_other_issues_witness :
  mail.isValidToken 5 "other"
    (mail.replay (Some 60) sample.issues
       (mail.genToken (Some 60) 0 "other" (VBool true) mail.init).1)
  = mail.isValidToken 5 "other"
      (mail.genToken (Some 60) 0 "other" (VBool true) mail.init).1.
Proof.
  apply (isValidToken_unaffected_by_other_issues (Some 60) sample.issues).
  intros [H|[]]. discriminate H.
Defined.

Lemma isValidToken_antitone_witness :
  mail.isValidToken 5 "tok" (mail.replay (Some 60) sample.issues mail.init)
  = VBool true.
Proof.
  apply (isValidToken_antitone
           (mail.replay (Some 60) sample.issues mail.init) "tok" 5 10).
  - lia.
  - reflexivity.
Defined.

(** ** Deleting a pad: the rest of the index *)

Section PadDeletion.

Variables PPREFIX GPREFIX : string.

Hypothesis prefix_disjoint :
  forall a b : string, PPREFIX +:+ a <> GPREFIX +:+ b.

(** X18. [pad.del] takes only the deleted pad's id out of the group: after
    a successful delete the group record differs from the old one in
    [pads] alone, every other id is listed exactly as before and in the
    same order, and the pad record is gone. *)
Theorem pad_del_keeps_other_entries
    (key : string) (p : Pad.t) (g : Group.t) (s : db) :
  s !! (PPREFIX +:+ key) = Some (RPad p) ->
  group_stored GPREFIX (Pad.group p) g s ->
  exists (s' : db) (g' : Group.t),
    pad_del PPREFIX GPREFIX key s = (s', Ok tt)
    /\ s' !! (PPREFIX +:+ key) = None
    /\ s' !! (GPREFIX +:+ ToString (Pad.group p)) = Some (RGroup g')
    /\ g' = Group.set_pads (Group.pads g') g
    /\ Group.pads g'
       = List.filter (fun x => negb (same_value_zero x (Pad._id p)))
           (Group.pads g)
    /\ (forall x : value,
          x <> Pad._id p -> In x (Group.pads g') <-> In x (Group.pads g)).
Proof.
  intros Hp Hg.
  eexists _, _. split; [by apply pad_del_stored|].
  split; [|split; [apply lookup_insert_eq|]].
  - rewrite lookup_insert_ne
      by (intros H; symmetry in H; revert H; apply prefix_disjoint).
    apply lookup_delete_eq.
  - split; [reflexivity|]. split; [reflexivity|].
    intros x Hx. cbn [Group.set_pads Group.pads]. split.
    + unfold pull. rewrite filter_In. by intros [? _].
    + intros Hin. by apply pull_keeps_others.
Qed.

End PadDeletion.

Lemma pad_del_keeps_other_entries_witness :
  exists (s' : db) (g' : Group.t),
    pad_del sample.PPREFIX sample.GPREFIX "p1" sample.store_p1 = (s', Ok tt)
    /\ s' !! (sample.PPREFIX +:+ "p1") = None
    /\ s' !! (sample.GPREFIX +:+ ToString (Pad.group sample.p1))
       = Some (RGroup g')
    /\ g' = Group.set_pads (Group.pads g') sample.g1_p1
    /\ Group.pads g'
       = List.filter (fun x => negb (same_value_zero x (Pad._id sample.p1)))
           (Group.pads sample.g1_p1)
    /\ (forall x : value,
          x <> Pad._id sample.p1 ->
          In x (Group.pads g') <-> In x (Group.pads sample.g1_p1)).
Proof.
  apply (pad_del_keeps_other_entries sample.PPREFIX sample.GPREFIX
           sample_prefix_disjoint "p1" sample.p1 sample.g1_p1
           sample.store_p1).
  - reflexivity.
  - split; reflexivity.
Defined.
